(** * FunFood backend: the request handlers of [Appifyours/backend/server.js]

    The server is an Express application over two Mongoose models, [Product]
    and [User].  Every route handler is embedded as a function in a small
    state-and-exception monad over the database; a request is one step of a
    transition system whose reachable states carry the invariants of the
    data model.

    What stands outside [server.js] is taken as follows.
    - The database starts empty and only this server writes to it; a store
      call fails only by the errors the schemas provoke (a cast or a
      validation error) or by a pattern the store rejects.
    - Numbers are IEEE-754 doubles ([float]); a Number path of a schema
      takes every number but NaN, on which saving the document fails.
    - A route parameter [:id] reaches [findById] already classified: it
      either denotes an ObjectId or it does not, and then the cast throws.
    - The remote fetch of [/api/shop-data] reaches the handler as its
      outcome: a transport error, or a body with the verdict of
      [JSON.parse] on it.
    - The pattern engine behind [$regex], the conversions between numbers
      and their texts, and the order in which saves that run side by side
      reach the store are parameters of the development (the class
      [Engine]).
    - A field of the cart body is a JSON number, a JSON string or missing;
      the fields of the registration body and of the remote payload are
      strings or missing.
    - The state after a request is the state once the saves it started have
      settled. *)

From Stdlib Require Import ZArith List String Ascii Floats.
From stdpp Require Import base decidable option list strings numbers pretty.

Open Scope string_scope.

(** ** Scalars *)

Definition ObjectId := N.
Definition Time := Z.
Bind Scope N_scope with ObjectId.
Bind Scope Z_scope with Time.

(** The [:id] segment of a route, as the ObjectId cast of [findById]
    classifies it. *)
Inductive IdParam :=
| ValidId (k : ObjectId)
| InvalidId (raw : string).

(** [ToBoolean] on a string-or-undefined and on a number: the empty string,
    [undefined], both zeros and NaN are falsy. *)
Definition truthy_string (s : option string) : bool :=
  match s with
  | Some (String _ _) => true
  | _ => false
  end.

Definition truthy_number (x : float) : bool :=
  negb (PrimFloat.is_zero x || PrimFloat.is_nan x).

(** [a || b] on strings that may be undefined. *)
Definition or_string (a b : option string) : option string :=
  if truthy_string a then a else b.

(** [a || b] on numbers. *)
Definition or_number (a b : float) : float :=
  if truthy_number a then a else b.

(** A field of a JSON body as the handler reads it: missing, a number or a
    string. *)
Inductive Raw :=
| Undefined
| Number (x : float)
| Text (s : string).

(** A Number path read in an arithmetic expression: [undefined] is NaN. *)
Definition num (x : option float) : float := default nan x.

(** [stored === raw] between a String path of a document and a field of
    the body: a number is never strictly equal to a string. *)
Definition strict_eq (stored : option string) (raw : Raw) : bool :=
  match stored, raw with
  | None, Undefined => true
  | Some s, Text t => bool_decide (s = t)
  | _, _ => false
  end.

(** ** Validation errors *)

Definition dquote : string := String (ascii_of_nat 34) EmptyString.

(** The error of a [required] path that is missing or empty. *)
Definition required_message (path : string) : string :=
  path +:+ ": Path `" +:+ path +:+ "` is required.".

(** The error of a Number path that was given NaN.  (For a text that is no
    number the store names the text where this message names NaN; the
    properties below use the wording for NaN itself only.) *)
Definition number_message (path leaf : string) : string :=
  path +:+ ": Cast to Number failed for value " +:+ dquote +:+ "NaN" +:+ dquote +:+
  " (type number) at path " +:+ dquote +:+ leaf +:+ dquote.

Definition required_errors (path : string) (value : option string) : list string :=
  if truthy_string value then [] else [required_message path].

Definition number_errors (path leaf : string) (value : option float) : list string :=
  match value with
  | Some x => if PrimFloat.is_nan x then [number_message path leaf] else []
  | None => []
  end.

(** ** Documents *)

Module Product.
Record t := mk {
  _id : ObjectId;
  name : option string;
  price : option float;
  description : option string;
  image : option string;
  category : option string;
  inStock : bool;
  createdAt : Time
}.

(** The errors of validation: [name] and [price] are required, and
    [price] is a Number. *)
Definition invalid_paths (p : t) : list string :=
  required_errors "name" (name p) ++
  (if price p is Some _ then [] else [required_message "price"]) ++
  number_errors "price" "price" (price p).
End Product.

Module Address.
Record t := mk {
  street : option string;
  city : option string;
  state : option string;
  zipCode : option string
}.
Definition unset : t := mk None None None None.
End Address.

Module OrderLine.
Record t := mk {
  productId : option string;
  name : option string;
  price : option float;
  quantity : option float
}.

Definition invalid_paths (path : string) (l : t) : list string :=
  number_errors (path +:+ ".price") "price" (price l) ++
  number_errors (path +:+ ".quantity") "quantity" (quantity l).
End OrderLine.

Module Order.
Record t := mk {
  orderId : string;
  products : list OrderLine.t;
  total : float;
  status : option string;
  createdAt : option Time
}.

(** Schema defaults applied when a plain object becomes an embedded
    document: [status] defaults to ['pending'], [createdAt] to now. *)
Definition cast (now : Time) (o : t) : t :=
  mk (orderId o) (products o) (total o)
     (Some (default "pending" (status o)))
     (Some (default now (createdAt o))).

Definition invalid_paths (path : string) (o : t) : list string :=
  concat (imap (λ j, OrderLine.invalid_paths (path +:+ ".products." +:+ pretty j))
               (products o)) ++
  number_errors (path +:+ ".total") "total" (Some (total o)).
End Order.

Module CartItem.
Record t := mk {
  productId : option string;
  name : option string;
  price : option float;
  quantity : option float;
  addedAt : Time
}.

Definition set_quantity (q : option float) (i : t) : t :=
  mk (productId i) (name i) (price i) q (addedAt i).

Definition invalid_paths (path : string) (i : t) : list string :=
  number_errors (path +:+ ".price") "price" (price i) ++
  number_errors (path +:+ ".quantity") "quantity" (quantity i).
End CartItem.

Module User.
Record t := mk {
  _id : ObjectId;
  name : option string;
  email : option string;
  phone : option string;
  address : Address.t;
  orders : list Order.t;
  cart : list CartItem.t;
  createdAt : Time
}.

Definition set_cart (c : list CartItem.t) (u : t) : t :=
  mk (_id u) (name u) (email u) (phone u) (address u) (orders u) c (createdAt u).

Definition set_orders (o : list Order.t) (u : t) : t :=
  mk (_id u) (name u) (email u) (phone u) (address u) o (cart u) (createdAt u).

(** The errors of validation: [name] and [email] are required, and no
    Number path of an order or of a cart item may hold NaN. *)
Definition invalid_paths (u : t) : list string :=
  required_errors "name" (name u) ++
  required_errors "email" (email u) ++
  concat (imap (λ i, Order.invalid_paths ("orders." +:+ pretty i)) (orders u)) ++
  concat (imap (λ i, CartItem.invalid_paths ("cart." +:+ pretty i)) (cart u)).
End User.

(** ** Request bodies *)

Module RegisterBody.
Record t := mk {
  name : option string;
  email : option string;
  phone : option string;
  address : option Address.t
}.
End RegisterBody.

Module CartBody.
Record t := mk {
  productId : Raw;
  name : Raw;
  price : Raw;
  quantity : Raw
}.
End CartBody.

(** ** The remote shop payload *)

Module Remote.
(** [product.price] as [parseFloat] reads it.  [parseFloat] reads its
    argument through its text: [PriceText s] is a string [s], or any other
    value whose text is [s] (the array [[5]] has the text of [5]);
    [PriceAbsent] is a value in whose text no number starts ([undefined],
    [null], a boolean, a plain object). *)
Inductive Price :=
| PriceAbsent
| PriceNumber (x : float)
| PriceText (s : string).

Record Item := mkItem {
  name : option string;
  productName : option string;
  price : Price;
  description : option string;
  image : option string;
  category : option string
}.

Record Payload := mkPayload {
  shopName : option string;
  appName : option string;
  gstNumber : option string;
  products : option (list Item);
  lastUpdated : option string
}.

(** [shopData]: [success] read for its truthiness, [data] possibly
    missing. *)
Record ShopData := mkShopData {
  success : bool;
  data : option Payload
}.

(** What the request to the main server ends in: its ['error'] event, or
    its ['end'] event with the collected text, on which [JSON.parse]
    either throws ([None]) or yields [shopData]. *)
Inductive Fetched :=
| RequestError (message : string)
| ResponseEnd (parsed : option ShopData).
End Remote.

(** ** Responses *)

Module ShopSummary.
Record t := mk {
  shopName : option string;
  appName : option string;
  gstNumber : option string;
  products : list Remote.Item;
  lastUpdated : option string
}.
End ShopSummary.

Module AppConfig.
Record Features := mkFeatures {
  searchEnabled : bool;
  cartEnabled : bool;
  userRegistrationEnabled : bool;
  orderTrackingEnabled : bool
}.
(** [lastUpdated] is the instant whose ISO-8601 text the handler sends. *)
Record t := mk {
  adminId : string;
  shopName : string;
  lastUpdated : Time;
  features : Features
}.
End AppConfig.

Inductive Data :=
| DProducts (l : list Product.t)
| DProduct (p : Product.t)
| DUser (u : User.t)
| DCart (c : list CartItem.t)
| DOrder (o : Order.t)
| DOrders (l : list Order.t)
| DShopSummary (s : ShopSummary.t)
| DShopData (d : Remote.Payload)
| DConfig (c : AppConfig.t).

(** A value of a top-level key of a response body. *)
Inductive Field :=
| JBool (b : bool)
| JString (s : string)
| JTime (t : Time)
| JData (d : Data).

Definition Body := list (string * Field).

Record Response := mkResponse {
  status : Z;
  body : Body
}.

(** [res.json(b)] answers with status 200; [res.status(c).json(b)] with [c]. *)
Definition res_json (b : Body) : Response := mkResponse 200 b.
Definition res_status_json (c : Z) (b : Body) : Response := mkResponse c b.

(** The two envelope literals the handlers write. *)
Definition success (d : Data) : Body := [("success", JBool true); ("data", JData d)].
Definition failure (msg : string) : Body := [("success", JBool false); ("error", JString msg)].

(** ** Exceptions of the store *)

Inductive Exn :=
| CastError (kind value path model : string)
| ValidationError (model : string) (errors : list string)
| MongoServerError (msg : string).

Fixpoint join (sep : string) (l : list string) : string :=
  match l with
  | [] => ""
  | [s] => s
  | s :: rest => s +:+ sep +:+ join sep rest
  end.

(** [error.message]. *)
Definition message (e : Exn) : string :=
  match e with
  | CastError kind value path model =>
      "Cast to " +:+ kind +:+ " failed for value " +:+ dquote +:+ value +:+ dquote +:+
      " (type string) at path " +:+ dquote +:+ path +:+ dquote +:+
      " for model " +:+ dquote +:+ model +:+ dquote
  | ValidationError model errors =>
      model +:+ " validation failed: " +:+ join ", " errors
  | MongoServerError msg => msg
  end.

(** ** The database and the handler monad *)

(** The two collections in insertion order, and the counter from which the
    driver draws the ObjectId of each [new Model(...)]. *)
Record Db := mkDb {
  products : list Product.t;
  users : list User.t;
  oid : ObjectId
}.

Definition init : Db := mkDb [] [] 0%N.

Inductive Result (A : Type) :=
| Ok (a : A)
| Thrown (e : Exn).
Arguments Ok {A} a.
Arguments Thrown {A} e.

Definition Handler (A : Type) : Type := Db → Result A * Db.

#[global] Instance Handler_ret : MRet Handler := λ A a db, (Ok a, db).

#[global] Instance Handler_bind : MBind Handler := λ A B f m db,
  match m db with
  | (Ok a, db') => f a db'
  | (Thrown e, db') => (Thrown e, db')
  end.

Definition throw {A} (e : Exn) : Handler A := λ db, (Thrown e, db).

Fixpoint mapM {A B} (f : A → Handler B) (l : list A) : Handler (list B) :=
  match l with
  | [] => mret []
  | a :: rest => b ← f a; bs ← mapM f rest; mret (b :: bs)
  end.

Definition is_ok {A} (r : Result A) : bool :=
  match r with Ok _ => true | Thrown _ => false end.

(** [try { ... } catch (error) { res.status(500).json({ success: false,
    error: error.message }) }]: the shape of every route handler. *)
Definition try_catch_500 (h : Handler Response) : Db → Response * Db := λ db,
  match h db with
  | (Ok r, db') => (r, db')
  | (Thrown error, db') => (res_status_json 500 (failure (message error)), db')
  end.

(** ** Collections *)

Section Collection.
Context {D : Type} (id_of : D → ObjectId) (model : string).

Definition has_id (k : ObjectId) (d : D) : bool := bool_decide (id_of d = k).

(** [Model.findById(id)]: throws on an id that is no ObjectId. *)
Definition findById (id : IdParam) (c : list D) : Result (option D) :=
  match id with
  | InvalidId raw => Thrown (CastError "ObjectId" raw "_id" model)
  | ValidId k => Ok (find (has_id k) c)
  end.

(** [updateOne({ _id }, ...)] with the whole document: the first document
    under that id is replaced. *)
Fixpoint replaceById (d' : D) (c : list D) : list D :=
  match c with
  | [] => []
  | d :: rest =>
      if has_id (id_of d') d then d' :: rest else d :: replaceById d' rest
  end.
End Collection.

Definition set_products (ps : list Product.t) (db : Db) : Db :=
  mkDb ps (users db) (oid db).
Definition set_users (us : list User.t) (db : Db) : Db :=
  mkDb (products db) us (oid db).
Definition set_oid (k : ObjectId) (db : Db) : Db :=
  mkDb (products db) (users db) k.

(** The ObjectId of a document under construction. *)
Definition new_ObjectId : Handler ObjectId := λ db,
  (Ok (oid db), set_oid (N.succ (oid db)) db).

Definition Product_findById (id : IdParam) : Handler (option Product.t) := λ db,
  (findById Product._id "Product" id (products db), db).

Definition Product_find (cond : Product.t → bool) : Handler (list Product.t) := λ db,
  (Ok (List.filter cond (products db)), db).

Definition Product_deleteMany : Handler unit := λ db,
  (Ok (), set_products [] db).

Definition User_findById (id : IdParam) : Handler (option User.t) := λ db,
  (findById User._id "User" id (users db), db).

(** [User.findOne({ email })]: an undefined [email] asks for the documents
    without one. *)
Definition User_findOne (email : option string) : Handler (option User.t) := λ db,
  (Ok (find (λ u, bool_decide (User.email u = email)) (users db)), db).

(** [user.save()]: validation, then an insert for a document made by
    [new User(...)] ([isNew]) and an update in place for a loaded one. *)
Definition User_save (isNew : bool) (u : User.t) : Handler unit := λ db,
  match User.invalid_paths u with
  | [] =>
      (Ok (), set_users (if isNew then users db ++ [u]
                         else replaceById User._id u (users db)) db)
  | paths => (Thrown (ValidationError "User" paths), db)
  end.

(** ** Route handlers *)

(** [user.cart.reduce((sum, item) => sum + (item.price * item.quantity), 0)] *)
Definition cart_total (cart : list CartItem.t) : float :=
  fold_left (λ sum item,
               (sum + num (CartItem.price item) * num (CartItem.quantity item))%float)
            cart 0%float.

(** The object literal built for each cart item by [placeOrder]. *)
Definition snapshot (item : CartItem.t) : OrderLine.t :=
  OrderLine.mk (CartItem.productId item) (CartItem.name item)
               (CartItem.price item) (CartItem.quantity item).

(** [new User({ name, email, phone, address })] *)
Definition new_User (b : RegisterBody.t) (now : Time) : Handler User.t :=
  k ← new_ObjectId;
  mret (User.mk k (RegisterBody.name b) (RegisterBody.email b) (RegisterBody.phone b)
                (default Address.unset (RegisterBody.address b)) [] [] now).

Definition user_not_found : Response := res_status_json 404 (failure "User not found").

(** ** The request to the main server *)

(** [s.replace(pattern, replacement)] with a string pattern: the first
    occurrence is replaced. *)
Fixpoint drop_chars (n : nat) (s : string) : string :=
  match n, s with
  | O, _ => s
  | S n, String _ rest => drop_chars n rest
  | S _, EmptyString => EmptyString
  end.

Fixpoint replace (pattern replacement s : string) : string :=
  match s with
  | EmptyString => if String.prefix pattern s then replacement else s
  | String c rest =>
      if String.prefix pattern s
      then replacement +:+ drop_chars (String.length pattern) s
      else String c (replace pattern replacement rest)
  end.

Module RequestOptions.
Record t := mk {
  hostname : string;
  port : Z;
  path : string;
  method : string;
  headers : list (string * string)
}.
End RequestOptions.

Definition adminId : string := "6902176a312bc81a247cf58e".

(** [process.env.MAIN_SERVER_URL || 'http://localhost:3001'] *)
Definition mainServerUrl (MAIN_SERVER_URL : option string) : string :=
  default "" (or_string MAIN_SERVER_URL (Some "http://localhost:3001")).

(** The [options] of [http.request] in the shop-data handler. *)
Definition request_options (MAIN_SERVER_URL : option string) : RequestOptions.t :=
  RequestOptions.mk
    (replace "https://" "" (replace "http://" "" (mainServerUrl MAIN_SERVER_URL)))
    3001
    ("/shop-data/" +:+ adminId)
    "GET"
    [("Content-Type", "application/json")].

(** What the handlers use of the pattern engine of the store, of the
    script engine and of the scheduling of the store.
    - [regex pattern options] compiles a [$regex] condition: [None] when
      the store rejects the pattern, otherwise the test it performs on a text.
    - [parseFloat_text] is [parseFloat] on a string; NaN when no number can
      be read.
    - [toString_number] is the text of a number, [toNumber_text] the
      number a non-empty text stands for as a whole, NaN when it is none.
    - [arrival] is the order in which documents whose saves were started
      together reach the store: some rearrangement of them. *)
Class Engine := {
  regex : string → string → option (string → bool);
  parseFloat_text : string → float;
  toString_number : float → string;
  toNumber_text : string → float;
  arrival : list Product.t → list Product.t;
  arrival_permutation : ∀ l, arrival l ≡ₚ l
}.

Section Server.
Context {engine : Engine}.

(** The casts of the schema on a value given to a String path and to a
    Number path.  A text that is no number gives NaN, which the path
    refuses when the document is saved; the empty text gives no value. *)
Definition castString (raw : Raw) : option string :=
  match raw with
  | Undefined => None
  | Number x => Some (toString_number x)
  | Text s => Some s
  end.

Definition castNumber (raw : Raw) : option float :=
  match raw with
  | Undefined => None
  | Number x => Some x
  | Text EmptyString => None
  | Text s => Some (toNumber_text s)
  end.

(** [stored + raw] as the script engine computes it, given back to a Number
    path: two numbers are added; a string on the right makes it a
    concatenation of texts, read back as a number; a missing operand gives
    NaN. *)
Definition plus (stored : option float) (raw : Raw) : option float :=
  match raw with
  | Undefined => Some nan
  | Number y => Some (num stored + y)%float
  | Text t =>
      Some (toNumber_text
              (match stored with
               | Some x => toString_number x
               | None => "undefined"
               end +:+ t))
  end.

(** [existingItem.quantity += quantity] on the item that
    [cart.find(item => item.productId === productId)] returns. *)
Fixpoint increment (productId quantity : Raw) (cart : list CartItem.t)
  : list CartItem.t :=
  match cart with
  | [] => []
  | item :: rest =>
      if strict_eq (CartItem.productId item) productId
      then CartItem.set_quantity (plus (CartItem.quantity item) quantity) item :: rest
      else item :: increment productId quantity rest
  end.

(** [user.cart.push({ productId, name, price, quantity })]: each field is
    cast by its path; [addedAt] takes its schema default. *)
Definition push_item (b : CartBody.t) (now : Time) (cart : list CartItem.t)
  : list CartItem.t :=
  cart ++ [CartItem.mk (castString (CartBody.productId b)) (castString (CartBody.name b))
                       (castNumber (CartBody.price b)) (castNumber (CartBody.quantity b))
                       now].

(** The [if (existingItem) ... else ...] of the cart handler. *)
Definition add_to (b : CartBody.t) (now : Time) (cart : list CartItem.t)
  : list CartItem.t :=
  match find (λ item, strict_eq (CartItem.productId item) (CartBody.productId b)) cart with
  | Some existingItem => increment (CartBody.productId b) (CartBody.quantity b) cart
  | None => push_item b now cart
  end.

(** GET /api/products *)
Definition getProducts : Handler Response :=
  products ← Product_find Product.inStock;
  mret (res_json (success (DProducts products))).

(** GET /api/products/:id *)
Definition getProduct (id : IdParam) : Handler Response :=
  product ← Product_findById id;
  match product with
  | None => mret (res_status_json 404 (failure "Product not found"))
  | Some product => mret (res_json (success (DProduct product)))
  end.

(** A [{ field: { $regex, $options } }] condition on a path that may be
    unset. *)
Definition field_matches (test : string → bool) (field : option string) : bool :=
  match field with
  | Some text => test text
  | None => false
  end.

(** [Product.find({ $or: [name, description, category], inStock: true })] *)
Definition Product_search (query : string) : Handler (list Product.t) :=
  match regex query "i" with
  | None => throw (MongoServerError "Regular expression is invalid")
  | Some test =>
      Product_find (λ p,
        (field_matches test (Product.name p)
         || field_matches test (Product.description p)
         || field_matches test (Product.category p))
        && Product.inStock p)
  end.

(** GET /api/products/search/:query *)
Definition searchProducts (query : string) : Handler Response :=
  products ← Product_search query;
  mret (res_json (success (DProducts products))).

(** POST /api/users/register *)
Definition register (b : RegisterBody.t) (now : Time) : Handler Response :=
  existingUser ← User_findOne (RegisterBody.email b);
  match existingUser with
  | Some _ => mret (res_status_json 400 (failure "User already exists"))
  | None =>
      user ← new_User b now;
      User_save true user;;
      mret (res_json (success (DUser user)))
  end.

(** GET /api/users/:id *)
Definition getUser (id : IdParam) : Handler Response :=
  user ← User_findById id;
  match user with
  | None => mret user_not_found
  | Some user => mret (res_json (success (DUser user)))
  end.

(** POST /api/users/:id/cart *)
Definition addToCart (id : IdParam) (b : CartBody.t) (now : Time) : Handler Response :=
  user ← User_findById id;
  match user with
  | None => mret user_not_found
  | Some user =>
      let user := User.set_cart (add_to b now (User.cart user)) user in
      User_save false user;;
      mret (res_json (success (DCart (User.cart user))))
  end.

(** GET /api/users/:id/cart *)
Definition getCart (id : IdParam) : Handler Response :=
  user ← User_findById id;
  match user with
  | None => mret user_not_found
  | Some user => mret (res_json (success (DCart (User.cart user))))
  end.

(** POST /api/users/:id/orders *)
Definition placeOrder (id : IdParam) (now : Time) : Handler Response :=
  user ← User_findById id;
  match user with
  | None => mret user_not_found
  | Some user =>
      let orderId := "ORDER_" +:+ pretty now in
      let total := cart_total (User.cart user) in
      let order :=
        Order.mk orderId (map snapshot (User.cart user)) total (Some "pending") None in
      let user := User.set_orders (User.orders user ++ [Order.cast now order]) user in
      let user := User.set_cart [] user in
      User_save false user;;
      mret (res_json (success (DOrder order)))
  end.

(** GET /api/users/:id/orders *)
Definition getOrders (id : IdParam) : Handler Response :=
  user ← User_findById id;
  match user with
  | None => mret user_not_found
  | Some user => mret (res_json (success (DOrders (User.orders user))))
  end.

(** [parseFloat(product.price)]: a number is read back from its own text
    (which loses the sign of zero); anything that is neither a number nor
    a text gives NaN. *)
Definition parseFloat (p : Remote.Price) : float :=
  match p with
  | Remote.PriceAbsent => nan
  | Remote.PriceNumber x => if PrimFloat.is_zero x then zero else x
  | Remote.PriceText s => parseFloat_text s
  end.

(** The document of [new Product({ name: product.name || product.productName,
    price: parseFloat(product.price) || 0, description: product.description || '',
    image: product.image, category: product.category || 'General',
    inStock: true })] under ObjectId [k]; [createdAt] takes its schema
    default. *)
Definition product_of (product : Remote.Item) (now : Time) (k : ObjectId) : Product.t :=
  Product.mk k
    (or_string (Remote.name product) (Remote.productName product))
    (Some (or_number (parseFloat (Remote.price product)) 0))
    (or_string (Remote.description product) (Some ""))
    (Remote.image product)
    (or_string (Remote.category product) (Some "General"))
    true
    now.

Definition new_Product (product : Remote.Item) (now : Time) : Handler Product.t :=
  k ← new_ObjectId;
  mret (product_of product now k).

(** A product document that passes the validators of its schema. *)
Definition valid_product (p : Product.t) : bool :=
  match Product.invalid_paths p with [] => true | _ => false end.

(** How the promise of one [newProduct.save()] settles. *)
Definition settled_save (p : Product.t) : Result unit :=
  if valid_product p then Ok ()
  else Thrown (ValidationError "Product" (Product.invalid_paths p)).

(** [save()] called on each of several new documents before any of the
    saves has settled: each promise settles on its own, and the documents
    that pass validation reach the store in the order [arrival]. *)
Definition Product_save_all (ps : list Product.t) : Handler (list (Result unit)) := λ db,
  (Ok (map settled_save ps),
   set_products (products db ++ arrival (List.filter valid_product ps)) db).

(** [products.map(product => { const newProduct = new Product(...); return
    newProduct.save(); })]: the documents are built one after the other,
    and every save is started before the first one settles. *)
Definition productPromises (products : list Remote.Item) (now : Time)
  : Handler (list (Result unit)) :=
  newProducts ← mapM (λ product, new_Product product now) products;
  Product_save_all newProducts.

(** The callback of the ['end'] event, once [shopData.success] holds and
    [shopData.data] is there. *)
Definition storeShopData (data : Remote.Payload) (now : Time) : Handler Response :=
  let products := default [] (Remote.products data) in
  Product_deleteMany;;
  settled ← productPromises products now;
  if forallb is_ok settled
  then mret (res_json (success (DShopSummary
               (ShopSummary.mk (Remote.shopName data) (Remote.appName data)
                               (Remote.gstNumber data) products
                               (Remote.lastUpdated data)))))
  else mret (res_json (success (DShopData data))).

(** GET /api/shop-data *)
Definition getShopData (fetched : Remote.Fetched) (now : Time) : Handler Response :=
  match fetched with
  | Remote.RequestError _ =>
      mret (res_status_json 500 (failure "Failed to fetch shop data from main server"))
  | Remote.ResponseEnd None =>
      mret (res_status_json 500 (failure "Failed to parse shop data"))
  | Remote.ResponseEnd (Some shopData) =>
      if Remote.success shopData then
        match Remote.data shopData with
        | None => mret (res_status_json 500 (failure "Failed to parse shop data"))
        | Some data => storeShopData data now
        end
      else mret (res_status_json 404 (failure "Shop data not found"))
  end.

(** GET /api/app-config *)
Definition getAppConfig (now : Time) : Handler Response :=
  let config :=
    AppConfig.mk "6902176a312bc81a247cf58e" "FunFood" now
                 (AppConfig.mkFeatures true true true true) in
  mret (res_json (success (DConfig config))).

(** GET /health *)
Definition health (now : Time) : Response :=
  res_json [("status", JString "OK"); ("timestamp", JTime now)].

(** ** The server as a transition system *)

Inductive Request :=
| GET_products
| GET_product (id : IdParam)
| GET_products_search (query : string)
| POST_users_register (body : RegisterBody.t)
| GET_user (id : IdParam)
| POST_user_cart (id : IdParam) (body : CartBody.t)
| GET_user_cart (id : IdParam)
| POST_user_orders (id : IdParam)
| GET_user_orders (id : IdParam)
| GET_shop_data (fetched : Remote.Fetched)
| GET_app_config
| GET_health.

(** One request, served at clock reading [now]. *)
Definition handle (req : Request) (now : Time) : Db → Response * Db :=
  match req with
  | GET_products => try_catch_500 getProducts
  | GET_product id => try_catch_500 (getProduct id)
  | GET_products_search query => try_catch_500 (searchProducts query)
  | POST_users_register b => try_catch_500 (register b now)
  | GET_user id => try_catch_500 (getUser id)
  | POST_user_cart id b => try_catch_500 (addToCart id b now)
  | GET_user_cart id => try_catch_500 (getCart id)
  | POST_user_orders id => try_catch_500 (placeOrder id now)
  | GET_user_orders id => try_catch_500 (getOrders id)
  | GET_shop_data fetched => try_catch_500 (getShopData fetched now)
  | GET_app_config => try_catch_500 (getAppConfig now)
  | GET_health => λ db, (health now, db)
  end.

Inductive reachable : Db → Prop :=
| reachable_init : reachable init
| reachable_step db req now :
    reachable db → reachable (snd (handle req now db)).

(** ** Invariants of the data model *)


(** A user document that passes the validators of its schema. *)
Definition user_ok (u : User.t) : Prop := User.invalid_paths u = [].

Record Inv (db : Db) : Prop := mk_Inv {
  inv_users : Forall user_ok (users db);
  inv_user_ids : Forall (λ u, (User._id u < oid db)%N) (users db);
  inv_user_ids_nodup : NoDup (map User._id (users db));
  inv_emails_nodup : NoDup (map User.email (users db));
  inv_products : Forall (λ p, valid_product p = true) (products db);
  inv_product_ids : Forall (λ p, (Product._id p < oid db)%N) (products db);
  inv_product_ids_nodup : NoDup (map Product._id (products db))
}.

(** What a request leaves alone. *)
Definition same_profile (u u' : User.t) : Prop :=
  User._id u' = User._id u ∧ User.name u' = User.name u ∧
  User.email u' = User.email u ∧ User.phone u' = User.phone u ∧
  User.address u' = User.address u ∧ User.createdAt u' = User.createdAt u.

(** A response in one of the two envelopes. *)
Definition enveloped (r : Response) : Prop :=
  (∃ d, body r = [("success", JBool true); ("data", JData d)]) ∨
  (∃ e, body r = [("success", JBool false); ("error", JString e)]).

(** A response that reports a failure. *)
Definition reports_failure (r : Response) : Prop :=
  ∃ rest, body r = ("success", JBool false) :: rest.

Definition is_2xx (code : Z) : Prop := (200 ≤ code < 300)%Z.



Definition other_lines (productId : option string) (cart : list CartItem.t)
  : list CartItem.t :=
  List.filter (λ item, negb (bool_decide (CartItem.productId item = productId))) cart.

(** The documents built for a list of remote items, with ObjectIds drawn in
    order from [k] on. *)
Fixpoint built (products : list Remote.Item) (now : Time) (k : ObjectId)
  : list Product.t :=
  match products with
  | [] => []
  | product :: rest => product_of product now k :: built rest now (N.succ k)
  end.

(** A log of requests, served in order. *)
Definition serve (log : list (Request * Time)) (db : Db) : Db :=
  fold_left (λ db entry, snd (handle entry.1 entry.2 db)) log db.

(** ASCII case folding, to speak of matching that ignores case. *)
Definition lower_ascii (a : ascii) : ascii :=
  let n := nat_of_ascii a in
  if (65 <=? n)%nat && (n <=? 90)%nat then ascii_of_nat (n + 32) else a.

Fixpoint lower (s : string) : string :=
  match s with
  | EmptyString => EmptyString
  | String a rest => String (lower_ascii a) (lower rest)
  end.

(** A test that ignores the case of the text it is given. *)
Definition caseless (test : string → bool) : Prop :=
  ∀ text, test text = test (lower text).

(** A remote item whose document passes validation: it has a usable name
    under [name] or [productName]. *)
Definition insertable (item : Remote.Item) : bool :=
  truthy_string (or_string (Remote.name item) (Remote.productName item)).

(** ** Vocabulary for the properties of the routes *)

(** The routes whose handlers call [save] or [deleteMany]. *)
Definition writes (req : Request) : bool :=
  match req with
  | POST_users_register _ | POST_user_cart _ _ | POST_user_orders _ | GET_shop_data _ => true
  | _ => false
  end.

(** The routes whose handlers write to the User collection, and to the
    Product collection. *)
Definition writes_users (req : Request) : bool :=
  match req with
  | POST_users_register _ | POST_user_cart _ _ | POST_user_orders _ => true
  | _ => false
  end.

Definition writes_products (req : Request) : bool :=
  match req with
  | GET_shop_data _ => true
  | _ => false
  end.

(** The routes whose answer carries the clock reading. *)
Definition clocked (req : Request) : bool :=
  match req with
  | GET_app_config | GET_health => true
  | _ => false
  end.



(** What holds of every product in the catalog. *)
Record product_ok (p : Product.t) : Prop := mk_product_ok {
  product_in_stock : Product.inStock p = true;
  product_named : truthy_string (Product.name p) = true;
  product_priced : ∃ x, Product.price p = Some x ∧ PrimFloat.is_nan x = false;
  product_categorised : truthy_string (Product.category p) = true;
  product_described : is_Some (Product.description p)
}.




(** A Number path that holds no NaN; a cart item, an order line and an
    order whose Number paths hold none. *)
Definition numeric (x : option float) : bool :=
  match x with
  | Some v => negb (PrimFloat.is_nan v)
  | None => true
  end.

Definition item_numeric (item : CartItem.t) : Prop :=
  numeric (CartItem.price item) = true ∧ numeric (CartItem.quantity item) = true.

Definition line_numeric (line : OrderLine.t) : Prop :=
  numeric (OrderLine.price line) = true ∧ numeric (OrderLine.quantity line) = true.

Definition order_numeric (o : Order.t) : Prop :=
  Forall line_numeric (Order.products o) ∧ PrimFloat.is_nan (Order.total o) = false.



End Server.

(** ** A concrete engine and sample data

    An engine that reads a pattern as a literal text (and rejects one with
    an opening parenthesis, as an unbalanced group is rejected), and reads
    the leading decimal digits of a text as its number. *)

Fixpoint contains (pattern text : string) : bool :=
  match text with
  | EmptyString => String.prefix pattern text
  | String _ rest => String.prefix pattern text || contains pattern rest
  end.

Definition literal_regex (pattern options : string) : option (string → bool) :=
  if contains "(" pattern then None
  else if String.eqb options "i"
       then Some (λ text, contains (lower pattern) (lower text))
       else Some (contains pattern).

Definition digit_of (a : ascii) : option float :=
  match a with
  | "0"%char => Some 0%float | "1"%char => Some 1%float | "2"%char => Some 2%float
  | "3"%char => Some 3%float | "4"%char => Some 4%float | "5"%char => Some 5%float
  | "6"%char => Some 6%float | "7"%char => Some 7%float | "8"%char => Some 8%float
  | "9"%char => Some 9%float
  | _ => None
  end.

Fixpoint read_digits (acc : option float) (s : string) : option float :=
  match s with
  | EmptyString => acc
  | String a rest =>
      match digit_of a with
      | Some d => read_digits (Some (default 0 acc * 10 + d)%float) rest
      | None => acc
      end
  end.

Definition digits_parseFloat (s : string) : float := default nan (read_digits None s).

(** The number a text of decimal digits stands for; NaN for any other
    non-empty text. *)
Fixpoint all_digits (s : string) : bool :=
  match s with
  | EmptyString => true
  | String a rest => (if digit_of a is Some _ then true else false) && all_digits rest
  end.

Definition digits_toNumber (s : string) : float :=
  if all_digits s then default 0%float (read_digits None s) else nan.

(** The text of a whole number (the fraction of any other number is cut). *)
Definition whole_text (x : float) : string :=
  match Prim2SF x with
  | S754_zero _ => "0"
  | S754_infinity false => "Infinity"
  | S754_infinity true => "-Infinity"
  | S754_nan => "NaN"
  | S754_finite sign m e =>
      (if sign then "-" else "") +:+
      pretty (match e with
              | Z0 => Zpos m
              | Zpos p => Zpos m * 2 ^ Zpos p
              | Zneg p => Zpos m / 2 ^ Zpos p
              end)%Z
  end.

(** The sample engine keeps the order of saves; a second one, otherwise
    the same, lets them reach the store in reverse. *)
Definition literal_engine : Engine :=
  {| regex := literal_regex;
     parseFloat_text := digits_parseFloat;
     toString_number := whole_text;
     toNumber_text := digits_toNumber;
     arrival := λ l, l;
     arrival_permutation := λ l, Permutation_refl l |}.

Definition reversing_engine : Engine :=
  {| regex := literal_regex;
     parseFloat_text := digits_parseFloat;
     toString_number := whole_text;
     toNumber_text := digits_toNumber;
     arrival := @rev Product.t;
     arrival_permutation := λ l, Permutation_sym (Permutation_rev l) |}.

Definition ann : RegisterBody.t :=
  RegisterBody.mk (Some "Ann") (Some "ann@example.com") None None.

Definition nameless : RegisterBody.t :=
  RegisterBody.mk None (Some "bob@example.com") None None.

Definition tea : CartBody.t :=
  CartBody.mk (Text "p1") (Text "Tea") (Number 10) (Number 2).
Definition cake : CartBody.t :=
  CartBody.mk (Text "p2") (Text "Cake") (Number 5) (Number 1).

(** Ann registers and puts two teas and a cake in her cart. *)
Definition db_ann_shopping : Db :=
  @serve literal_engine
    [(POST_users_register ann, 1000%Z);
     (POST_user_cart (ValidId 0) tea, 2000%Z);
     (POST_user_cart (ValidId 0) cake, 3000%Z)]
    init.

(** Ann alone, just registered. *)
Definition db_ann : Db :=
  @serve literal_engine [(POST_users_register ann, 1000%Z)] init.

(** Ann's document while she is shopping. *)
Definition ann_shopping : User.t :=
  User.mk 0 (Some "Ann") (Some "ann@example.com") None Address.unset []
          [CartItem.mk (Some "p1") (Some "Tea") (Some 10%float) (Some 2%float) 2000;
           CartItem.mk (Some "p2") (Some "Cake") (Some 5%float) (Some 1%float) 3000]
          1000.

Definition ann_registered : User.t :=
  User.mk 0 (Some "Ann") (Some "ann@example.com") None Address.unset [] [] 1000.

Definition coffee_item : Remote.Item :=
  Remote.mkItem (Some "Coffee") None (Remote.PriceNumber 4) (Some "Dark roast")
                None (Some "Drinks").

Definition scone_item : Remote.Item :=
  Remote.mkItem None (Some "Scone") (Remote.PriceText "3") None None None.

Definition unnamed_item : Remote.Item :=
  Remote.mkItem None None (Remote.PriceNumber 2) None None None.

Definition payload (items : list Remote.Item) : Remote.Payload :=
  Remote.mkPayload (Some "FunFood") (Some "FunFood App") (Some "GST-1")
                   (Some items) (Some "2025-01-01T00:00:00.000Z").

Definition shop (items : list Remote.Item) : Remote.ShopData :=
  Remote.mkShopData true (Some (payload items)).

(** The catalog after one refresh that brought a coffee and a scone. *)
Definition db_stocked : Db :=
  @serve literal_engine
    [(GET_shop_data (Remote.ResponseEnd (Some (shop [coffee_item; scone_item]))), 500%Z)]
    init.

Definition coffee : Product.t :=
  Product.mk 0 (Some "Coffee") (Some 4%float) (Some "Dark roast") None (Some "Drinks")
             true 500.

Definition scone : Product.t :=
  Product.mk 1 (Some "Scone") (Some 3%float) (Some "") None (Some "General") true 500.

(** Ann after she has placed her order. *)
Definition db_ann_ordered : Db :=
  @serve literal_engine
    [(POST_users_register ann, 1000%Z);
     (POST_user_cart (ValidId 0) tea, 2000%Z);
     (POST_user_cart (ValidId 0) cake, 3000%Z);
     (POST_user_orders (ValidId 0), 4000%Z)]
    init.

Definition ann_order : Order.t :=
  Order.mk "ORDER_4000"
           [OrderLine.mk (Some "p1") (Some "Tea") (Some 10%float) (Some 2%float);
            OrderLine.mk (Some "p2") (Some "Cake") (Some 5%float) (Some 1%float)]
           25 (Some "pending") (Some 4000%Z).

Definition ann_ordered : User.t :=
  User.mk 0 (Some "Ann") (Some "ann@example.com") None Address.unset [ann_order] [] 1000.









(** A second registration under Ann's email. *)
Definition ann_again : RegisterBody.t :=
  RegisterBody.mk (Some "Anna") (Some "ann@example.com") (Some "555-0100") None.

Section Verification.
Context {engine : Engine}.

(** ** Unfolding the monad *)

Ltac run :=
  repeat (cbn [fst snd] in *;
          unfold try_catch_500, mbind, mret, Handler_bind, Handler_ret, throw,
            User_findById, User_findOne, User_save, Product_findById, Product_find,
            Product_deleteMany, new_ObjectId, findById in *).

(** ** Collections: what [find] and [replaceById] do *)

Section CollectionFacts.
Context {D : Type} (id_of : D → ObjectId).

Lemma find_has_id k (c : list D) d :
  find (has_id id_of k) c = Some d → id_of d = k ∧ d ∈ c.
Proof.
  intros H. apply find_some in H as [Hin Hk].
  split; [by apply bool_decide_eq_true in Hk | by apply list_elem_of_In].
Qed.

Lemma find_replaceById_eq (d' : D) c d :
  find (has_id id_of (id_of d')) c = Some d →
  find (has_id id_of (id_of d')) (replaceById id_of d' c) = Some d'.
Proof.
  induction c as [|x c IH]; cbn; [done|].
  destruct (has_id id_of (id_of d') x) eqn:Hx; cbn.
  - intros _. unfold has_id. by rewrite bool_decide_eq_true_2.
  - rewrite Hx. exact IH.
Qed.

Lemma find_replaceById_ne (d' : D) c k :
  k ≠ id_of d' →
  find (has_id id_of k) (replaceById id_of d' c) = find (has_id id_of k) c.
Proof.
  intros Hne. induction c as [|x c IH]; cbn; [done|].
  destruct (has_id id_of (id_of d') x) eqn:Hx; cbn.
  - apply bool_decide_eq_true in Hx.
    unfold has_id at 1 3. rewrite !bool_decide_eq_false_2; congruence.
  - by rewrite IH.
Qed.

Lemma map_id_replaceById (d' : D) c :
  map id_of (replaceById id_of d' c) = map id_of c.
Proof.
  induction c as [|x c IH]; cbn; [done|].
  destruct (has_id id_of (id_of d') x) eqn:Hx; cbn; [|congruence].
  apply bool_decide_eq_true in Hx. congruence.
Qed.

Lemma Forall_replaceById (P : D → Prop) (d' : D) c :
  P d' → Forall P c → Forall P (replaceById id_of d' c).
Proof.
  intros Hd. induction 1 as [|x c Hx Hc IH]; cbn; [constructor|].
  destruct (has_id id_of (id_of d') x); constructor; assumption.
Qed.

End CollectionFacts.

(** ** The cart *)

Lemma cart_total_snoc cart item :
  cart_total (cart ++ [item]) =
  (cart_total cart + num (CartItem.price item) * num (CartItem.quantity item))%float.
Proof. unfold cart_total. by rewrite fold_left_app. Qed.

(** What [===] finds is stored under the cast of the body's productId; for
    a productId that is not a number the converse holds too. *)
Lemma strict_eq_cast stored raw :
  strict_eq stored raw = true → stored = castString raw.
Proof.
  destruct stored as [s|], raw as [|x|t]; cbn; try done.
  by intros ->%bool_decide_eq_true.
Qed.






Lemma increment_other_lines pid q cart :
  other_lines (castString pid) (increment pid q cart) = other_lines (castString pid) cart.
Proof.
  unfold other_lines. induction cart as [|x cart IH]; cbn; [done|].
  destruct (strict_eq (CartItem.productId x) pid) eqn:Hx; cbn.
  - apply strict_eq_cast in Hx. by rewrite !bool_decide_eq_true_2.
  - by rewrite IH.
Qed.

Lemma push_item_other_lines b now cart :
  other_lines (castString (CartBody.productId b)) (push_item b now cart) =
  other_lines (castString (CartBody.productId b)) cart.
Proof.
  unfold other_lines, push_item. rewrite List.filter_app. cbn.
  rewrite bool_decide_eq_true_2 by done. cbn. by rewrite app_nil_r.
Qed.

Lemma add_to_other_lines b now cart :
  other_lines (castString (CartBody.productId b)) (add_to b now cart) =
  other_lines (castString (CartBody.productId b)) cart.
Proof.
  unfold add_to. destruct (find _ cart).
  - apply increment_other_lines.
  - apply push_item_other_lines.
Qed.


(** ** The refresher's inserts *)

Lemma new_Products_run items now db :
  mapM (λ product, new_Product product now) items db =
  (Ok (built items now (oid db)), set_oid (oid db + N.of_nat (length items))%N db).
Proof.
  revert db. induction items as [|item items IH]; intros db.
  - cbn. rewrite N.add_0_r. by destruct db.
  - cbn [mapM built length].
    unfold mbind at 1, Handler_bind at 1, new_Product at 1.
    unfold mbind at 1, Handler_bind at 1, new_ObjectId, mret at 1, Handler_ret at 1.
    unfold mbind at 1, Handler_bind at 1. rewrite IH.
    unfold mret, Handler_ret, set_oid. cbn. f_equal. f_equal. lia.
Qed.

Lemma productPromises_run items now db :
  productPromises items now db =
  (Ok (map settled_save (built items now (oid db))),
   mkDb (products db ++ arrival (List.filter valid_product (built items now (oid db))))
        (users db)
        (oid db + N.of_nat (length items))%N).
Proof.
  unfold productPromises, mbind, Handler_bind. by rewrite new_Products_run.
Qed.

Lemma forallb_settled l : forallb is_ok (map settled_save l) = forallb valid_product l.
Proof.
  induction l as [|p l IH]; cbn; [done|]. rewrite IH. unfold settled_save.
  by destruct (valid_product p).
Qed.

Lemma storeShopData_run data now db :
  let items := default [] (Remote.products data) in
  let made := built items now (oid db) in
  storeShopData data now db =
  (Ok (res_json (success
         (if forallb valid_product made
          then DShopSummary (ShopSummary.mk (Remote.shopName data) (Remote.appName data)
                               (Remote.gstNumber data) items (Remote.lastUpdated data))
          else DShopData data))),
   mkDb (arrival (List.filter valid_product made)) (users db)
        (oid db + N.of_nat (length items))%N).
Proof.
  intros items made. unfold storeShopData.
  unfold mbind at 1, Handler_bind at 1, Product_deleteMany.
  unfold mbind at 1, Handler_bind at 1. rewrite productPromises_run.
  rewrite forallb_settled. cbn [oid set_products products users app].
  fold items. fold made. by destruct (forallb valid_product made).
Qed.

(** Documents that arrive are the documents that were sent. *)
Lemma elem_of_arrival (l : list Product.t) p : p ∈ arrival l ↔ p ∈ l.
Proof. by rewrite (arrival_permutation l). Qed.

Lemma NoDup_arrival_ids (l : list Product.t) :
  NoDup (map Product._id l) → NoDup (map Product._id (arrival l)).
Proof.
  intros Hl. by rewrite (Permutation_map Product._id (arrival_permutation l)).
Qed.

(** ** Invariant preservation *)

(** *** When validation passes *)

Lemma number_errors_nil path leaf x : number_errors path leaf x = [] ↔ numeric x = true.
Proof.
  unfold number_errors, numeric. destruct x as [v|]; [|done].
  by destruct (PrimFloat.is_nan v).
Qed.

Lemma concat_imap_nil {A B} (f : nat → A → list B) (P : A → Prop) (l : list A) :
  (∀ i x, f i x = [] ↔ P x) → concat (imap f l) = [] ↔ Forall P l.
Proof.
  revert f. induction l as [|x l IH]; intros f Hf; cbn.
  - split; [constructor | done].
  - rewrite Forall_cons, <- (IH (f ∘ S)), <- (Hf 0%nat x) by (intros i y; apply Hf).
    split; [by intros [? ?]%app_eq_nil | by intros [-> ->]].
Qed.

Lemma item_invalid_paths_nil path item :
  CartItem.invalid_paths path item = [] ↔ item_numeric item.
Proof.
  unfold CartItem.invalid_paths, item_numeric. rewrite <- !number_errors_nil.
  split; [by intros [? ?]%app_eq_nil | intros [H1 H2]; by rewrite H1, H2].
Qed.

Lemma line_invalid_paths_nil path line :
  OrderLine.invalid_paths path line = [] ↔ line_numeric line.
Proof.
  unfold OrderLine.invalid_paths, line_numeric. rewrite <- !number_errors_nil.
  split; [by intros [? ?]%app_eq_nil | intros [H1 H2]; by rewrite H1, H2].
Qed.

Lemma order_invalid_paths_nil path o :
  Order.invalid_paths path o = [] ↔ order_numeric o.
Proof.
  unfold Order.invalid_paths, order_numeric.
  rewrite <- (concat_imap_nil
                (λ j, OrderLine.invalid_paths (path +:+ ".products." +:+ pretty j)))
    by (intros; apply line_invalid_paths_nil).
  assert (Ht : number_errors (path +:+ ".total") "total" (Some (Order.total o)) = [] ↔
               PrimFloat.is_nan (Order.total o) = false).
  { rewrite number_errors_nil. cbn. by destruct (PrimFloat.is_nan _). }
  rewrite <- Ht. split; [by intros [? ?]%app_eq_nil | intros [H1 H2]; by rewrite H1, H2].
Qed.

Lemma required_errors_nil path value :
  required_errors path value = [] ↔ truthy_string value = true.
Proof. unfold required_errors. by destruct (truthy_string value). Qed.

(** A user document passes validation exactly when name and email are
    there and no Number path of its orders and cart holds NaN. *)
Lemma user_ok_iff u :
  user_ok u ↔
  truthy_string (User.name u) = true ∧ truthy_string (User.email u) = true ∧
  Forall order_numeric (User.orders u) ∧ Forall item_numeric (User.cart u).
Proof.
  unfold user_ok, User.invalid_paths.
  rewrite <- !required_errors_nil.
  rewrite <- (concat_imap_nil (λ i, Order.invalid_paths ("orders." +:+ pretty i)))
    by (intros; apply order_invalid_paths_nil).
  rewrite <- (concat_imap_nil (λ i, CartItem.invalid_paths ("cart." +:+ pretty i)))
    by (intros; apply item_invalid_paths_nil).
  split.
  - intros [? [? [? ?]%app_eq_nil]%app_eq_nil]%app_eq_nil. done.
  - intros (-> & -> & -> & ->). done.
Qed.

Lemma Inv_init : Inv init.
Proof. split; cbn; constructor. Qed.

(** ** The handlers, one database step each *)

Lemma try_catch_500_db h db : (try_catch_500 h db).2 = (h db).2.
Proof. unfold try_catch_500. by destruct (h db) as [[r|e] db']. Qed.

Lemma getProducts_db db : (getProducts db).2 = db.
Proof. reflexivity. Qed.

Lemma getProduct_db id db : (getProduct id db).2 = db.
Proof.
  unfold getProduct. run. destruct id as [k|raw]; [|done].
  by destruct (find _ _).
Qed.

Lemma searchProducts_db query db : (searchProducts query db).2 = db.
Proof. unfold searchProducts, Product_search. run. by destruct (regex query "i"). Qed.

Lemma getUser_db id db : (getUser id db).2 = db.
Proof.
  unfold getUser. run. destruct id as [k|raw]; [|done]. by destruct (find _ _).
Qed.

Lemma getCart_db id db : (getCart id db).2 = db.
Proof.
  unfold getCart. run. destruct id as [k|raw]; [|done]. by destruct (find _ _).
Qed.

Lemma getOrders_db id db : (getOrders id db).2 = db.
Proof.
  unfold getOrders. run. destruct id as [k|raw]; [|done]. by destruct (find _ _).
Qed.

Lemma register_run b now db :
  let user := User.mk (oid db) (RegisterBody.name b) (RegisterBody.email b)
                (RegisterBody.phone b)
                (default Address.unset (RegisterBody.address b)) [] [] now in
  register b now db =
  match find (λ u, bool_decide (User.email u = RegisterBody.email b)) (users db) with
  | Some _ => (Ok (res_status_json 400 (failure "User already exists")), db)
  | None =>
      match User.invalid_paths user with
      | [] => (Ok (res_json (success (DUser user))),
               mkDb (products db) (users db ++ [user]) (N.succ (oid db)))
      | paths => (Thrown (ValidationError "User" paths), set_oid (N.succ (oid db)) db)
      end
  end.
Proof.
  intros user. unfold register, new_User. run.
  destruct (find _ (users db)); [done|]. cbn. fold user.
  by destruct (User.invalid_paths user).
Qed.

Lemma addToCart_run id b now db :
  addToCart id b now db =
  match id with
  | InvalidId raw => (Thrown (CastError "ObjectId" raw "_id" "User"), db)
  | ValidId k =>
      match find (has_id User._id k) (users db) with
      | None => (Ok user_not_found, db)
      | Some user =>
          let cart := add_to b now (User.cart user) in
          match User.invalid_paths (User.set_cart cart user) with
          | [] => (Ok (res_json (success (DCart cart))),
                   set_users (replaceById User._id (User.set_cart cart user) (users db)) db)
          | paths => (Thrown (ValidationError "User" paths), db)
          end
      end
  end.
Proof.
  unfold addToCart. run. destruct id as [k|raw]; [|done].
  destruct (find _ (users db)) as [user|]; [|done]. cbn zeta.
  by destruct (User.invalid_paths (User.set_cart _ user)).
Qed.

Lemma placeOrder_run id now db :
  placeOrder id now db =
  match id with
  | InvalidId raw => (Thrown (CastError "ObjectId" raw "_id" "User"), db)
  | ValidId k =>
      match find (has_id User._id k) (users db) with
      | None => (Ok user_not_found, db)
      | Some user =>
          let order :=
            Order.mk ("ORDER_" +:+ pretty now) (map snapshot (User.cart user))
                     (cart_total (User.cart user)) (Some "pending") None in
          let user' :=
            User.set_cart []
              (User.set_orders (User.orders user ++ [Order.cast now order]) user) in
          match User.invalid_paths user' with
          | [] => (Ok (res_json (success (DOrder order))),
                   set_users (replaceById User._id user' (users db)) db)
          | paths => (Thrown (ValidationError "User" paths), db)
          end
      end
  end.
Proof.
  unfold placeOrder. run. destruct id as [k|raw]; [|done].
  destruct (find _ (users db)) as [user|]; [|done]. cbn zeta.
  by destruct (User.invalid_paths (User.set_cart _ _)).
Qed.

Lemma map_replaceById_same {D B} (id_of : D → ObjectId) (f : D → B) d' c d :
  find (has_id id_of (id_of d')) c = Some d → f d' = f d →
  map f (replaceById id_of d' c) = map f c.
Proof.
  intros Hf Hd. induction c as [|x c IH]; cbn in *; [done|].
  destruct (has_id id_of (id_of d') x); cbn.
  - injection Hf as ->. by rewrite Hd.
  - by rewrite IH.
Qed.

Lemma Inv_same_docs db db' :
  users db' = users db → products db' = products db → (oid db ≤ oid db')%N →
  Inv db → Inv db'.
Proof.
  intros Hu Hp Ho [H1 H2 H3 H4 H5 H6 H7]. split; rewrite ?Hu, ?Hp; try done.
  - eapply Forall_impl; [exact H2|]. cbn. intros u Hlt. lia.
  - eapply Forall_impl; [exact H6|]. cbn. intros u Hlt. lia.
Qed.

Lemma built_ids items now k p :
  p ∈ built items now k →
  (k ≤ Product._id p < k + N.of_nat (length items))%N.
Proof.
  revert k. induction items as [|item items IH]; intros k; cbn [built length].
  - by intros ?%elem_of_nil.
  - intros [->|Hin]%elem_of_cons.
    + cbn. lia.
    + apply IH in Hin. lia.
Qed.

Lemma filter_built_ids items now k p :
  p ∈ List.filter valid_product (built items now k) →
  valid_product p = true ∧ (k ≤ Product._id p < k + N.of_nat (length items))%N.
Proof.
  intros [Hin Hv]%list_elem_of_In%filter_In. split; [done|].
  by apply (built_ids items now), list_elem_of_In.
Qed.

Lemma arrived_built_ids items now k p :
  p ∈ arrival (List.filter valid_product (built items now k)) →
  valid_product p = true ∧ (k ≤ Product._id p < k + N.of_nat (length items))%N.
Proof. rewrite elem_of_arrival. apply filter_built_ids. Qed.

Lemma filter_built_NoDup items now k :
  NoDup (map Product._id (List.filter valid_product (built items now k))).
Proof.
  revert k. induction items as [|item items IH]; intros k; cbn [built List.filter].
  - constructor.
  - destruct (valid_product (product_of item now k)); [|apply IH].
    cbn [map]. constructor; [|apply IH]. cbn.
    intros Hin. apply list_elem_of_In, in_map_iff in Hin as (p & Hp & Hin).
    apply list_elem_of_In, filter_built_ids in Hin as [_ Hin]. lia.
Qed.

Lemma Inv_refresh db items now :
  Inv db →
  Inv (mkDb (arrival (List.filter valid_product (built items now (oid db)))) (users db)
            (oid db + N.of_nat (length items))%N).
Proof.
  intros [H1 H2 H3 H4 H5 H6 H7]. split; cbn; try done.
  - eapply Forall_impl; [exact H2|]. cbn. intros u Hlt. lia.
  - apply Forall_forall. by intros p [Hv _]%arrived_built_ids.
  - apply Forall_forall. intros p [_ Hlt]%arrived_built_ids. lia.
  - apply NoDup_arrival_ids, filter_built_NoDup.
Qed.


Lemma Inv_replace db k u u' :
  Inv db → find (has_id User._id k) (users db) = Some u →
  User._id u' = User._id u → User.email u' = User.email u → user_ok u' →
  Inv (set_users (replaceById User._id u' (users db)) db).
Proof.
  intros HI Hf Hid Hemail Hok.
  pose proof (find_has_id _ _ _ _ Hf) as [Hk Hin].
  assert (Hf' : find (has_id User._id (User._id u')) (users db) = Some u)
    by (by rewrite Hid, Hk).
  destruct HI as [H1 H2 H3 H4 H5 H6 H7]. split; cbn; try done.
  - by apply Forall_replaceById.
  - apply Forall_replaceById; [|done]. rewrite Hid.
    by apply (proj1 (Forall_forall _ _) H2).
  - by rewrite map_id_replaceById.
  - by rewrite (map_replaceById_same _ _ _ _ _ Hf' Hemail).
Qed.

Lemma Inv_register db user :
  Inv db → User._id user = oid db → user_ok user →
  find (λ u, bool_decide (User.email u = User.email user)) (users db) = None →
  Inv (mkDb (products db) (users db ++ [user]) (N.succ (oid db))).
Proof.
  intros [H1 H2 H3 H4 H5 H6 H7] Hid Hok Hf. split; cbn; try done.
  - apply Forall_app. split; [done|]. by constructor.
  - apply Forall_app. split.
    + eapply Forall_impl; [exact H2|]. cbn. intros u Hlt. lia.
    + constructor; [lia|constructor].
  - rewrite map_app. cbn. apply NoDup_app. split; [done|].
    split; [|apply NoDup_singleton].
    intros k Hin ->%list_elem_of_singleton.
    apply list_elem_of_In, in_map_iff in Hin as (u & Hu & Hin).
    apply list_elem_of_In in Hin.
    apply (proj1 (Forall_forall _ _) H2) in Hin. lia.
  - rewrite map_app. cbn. apply NoDup_app. split; [done|].
    split; [|apply NoDup_singleton].
    intros e Hin ->%list_elem_of_singleton.
    apply list_elem_of_In, in_map_iff in Hin as (u & Hu & Hin).
    apply (find_none _ _ Hf) in Hin. cbn in Hin.
    by rewrite bool_decide_eq_true_2 in Hin.
  - eapply Forall_impl; [exact H6|]. cbn. intros p Hlt. lia.
Qed.

Lemma Inv_step req now db : Inv db → Inv (snd (handle req now db)).
Proof.
  intros HI.
  destruct req as [|id|query|b|id|id b|id|id|id|fetched| |];
    cbn [handle]; rewrite ?try_catch_500_db.
  - by rewrite getProducts_db.
  - by rewrite getProduct_db.
  - by rewrite searchProducts_db.
  - rewrite register_run. cbn zeta.
    destruct (find _ (users db)) eqn:Hf; [done|].
    destruct (User.invalid_paths _) eqn:Hv; cbn [snd].
    + by apply Inv_register.
    + eapply Inv_same_docs; [| | |exact HI]; cbn; [done|done|lia].
  - by rewrite getUser_db.
  - rewrite addToCart_run. destruct id as [k|raw]; [|done].
    destruct (find _ (users db)) as [user|] eqn:Hf; [|done]. cbn zeta.
    destruct (User.invalid_paths _) eqn:Hv; [|done]. cbn [snd].
    by eapply Inv_replace.
  - by rewrite getCart_db.
  - rewrite placeOrder_run. destruct id as [k|raw]; [|done].
    destruct (find _ (users db)) as [user|] eqn:Hf; [|done]. cbn zeta.
    destruct (User.invalid_paths _) eqn:Hv; [|done]. cbn [snd].
    by eapply Inv_replace.
  - by rewrite getOrders_db.
  - unfold getShopData.
    destruct fetched as [msg|[[[] [data|]]|]]; cbn; try done.
    rewrite storeShopData_run. cbn. by apply Inv_refresh.
  - done.
  - done.
Qed.

(** Every state the server can reach satisfies the invariants. *)
Lemma reachable_Inv db : reachable db → Inv db.
Proof.
  induction 1 as [|db req now _ IH]; [apply Inv_init | by apply Inv_step].
Qed.

Lemma reachable_serve log db : reachable db → reachable (serve log db).
Proof.
  unfold serve. revert db.
  induction log as [|[req now] log IH]; intros db Hr; cbn; [done|].
  apply IH. by constructor.
Qed.


(** ** Order placement *)




(** ** The cart service *)












(** ** What the cart and order services leave alone *)

Lemma Forall2_same {A} (R : A → A → Prop) l : (∀ x, R x x) → Forall2 R l l.
Proof. intros HR. induction l; constructor; auto. Qed.

Lemma Forall2_replaceById {D} (id_of : D → ObjectId) (R : D → D → Prop) d' c d :
  find (has_id id_of (id_of d')) c = Some d →
  R d d' → (∀ x, R x x) → Forall2 R c (replaceById id_of d' c).
Proof.
  intros Hf Hd HR. induction c as [|x c IH]; cbn in *; [done|].
  destruct (has_id id_of (id_of d') x).
  - injection Hf as ->. constructor; [done | by apply Forall2_same].
  - constructor; auto.
Qed.

(** C10. [addItem] and [placeOrder] leave the Product collection as it
    was, and leave every user document as it was except the one the request
    names; in that one, name, email, phone, address, createdAt (and the id)
    stay, [addItem] also leaves the orders and every cart line item of
    another productId as they were; a user looked up under any other id is
    found unchanged. *)
Theorem addItem_placeOrder_frame db id b now :
  (products (snd (handle (POST_user_cart id b) now db)) = products db ∧
   Forall2 (λ u u',
              u' = u ∨
              (id = ValidId (User._id u) ∧ same_profile u u' ∧
               User.orders u' = User.orders u ∧
               other_lines (castString (CartBody.productId b)) (User.cart u') =
               other_lines (castString (CartBody.productId b)) (User.cart u)))
           (users db) (users (snd (handle (POST_user_cart id b) now db))) ∧
   (∀ k, id ≠ ValidId k →
         find (has_id User._id k) (users (snd (handle (POST_user_cart id b) now db))) =
         find (has_id User._id k) (users db))) ∧
  (products (snd (handle (POST_user_orders id) now db)) = products db ∧
   Forall2 (λ u u', u' = u ∨ (id = ValidId (User._id u) ∧ same_profile u u'))
           (users db) (users (snd (handle (POST_user_orders id) now db))) ∧
   (∀ k, id ≠ ValidId k →
         find (has_id User._id k) (users (snd (handle (POST_user_orders id) now db))) =
         find (has_id User._id k) (users db))).
Proof.
  split.
  - cbn [handle]. rewrite try_catch_500_db, addToCart_run.
    destruct id as [k|raw]; [|split_and!; by try apply Forall2_same; auto].
    destruct (find _ (users db)) as [user|] eqn:Hf;
      [|split_and!; by try apply Forall2_same; auto].
    pose proof (find_has_id _ _ _ _ Hf) as [Hk _]. cbn zeta.
    destruct (User.invalid_paths _);
      [|split_and!; by try apply Forall2_same; auto].
    cbn. split_and!; [done| |].
    + eapply Forall2_replaceById; [by rewrite <- Hk in Hf| |by left].
      right. rewrite Hk. split_and!; try done. apply add_to_other_lines.
    + intros k' Hne. apply find_replaceById_ne. cbn. congruence.
  - cbn [handle]. rewrite try_catch_500_db, placeOrder_run.
    destruct id as [k|raw]; [|split_and!; by try apply Forall2_same; auto].
    destruct (find _ (users db)) as [user|] eqn:Hf;
      [|split_and!; by try apply Forall2_same; auto].
    pose proof (find_has_id _ _ _ _ Hf) as [Hk _]. cbn zeta.
    destruct (User.invalid_paths _);
      [|split_and!; by try apply Forall2_same; auto].
    cbn. split_and!; [done| |].
    + eapply Forall2_replaceById; [by rewrite <- Hk in Hf| |by left].
      right. rewrite Hk. by split_and!.
    + intros k' Hne. apply find_replaceById_ne. cbn. congruence.
Qed.

(** ** Registration *)

Lemma find_email_Some e (us : list User.t) existing :
  existing ∈ us → User.email existing = e →
  ∃ u, find (λ u, bool_decide (User.email u = e)) us = Some u.
Proof.
  intros Hin He. destruct (find _ us) as [u|] eqn:Hf; [by eexists|].
  apply list_elem_of_In in Hin. apply (find_none _ _ Hf) in Hin. cbn in Hin.
  by rewrite bool_decide_eq_true_2 in Hin.
Qed.

Lemma find_email_None e (us : list User.t) :
  (∀ u, u ∈ us → User.email u ≠ e) →
  find (λ u, bool_decide (User.email u = e)) us = None.
Proof.
  intros Hne. destruct (find _ us) as [u|] eqn:Hf; [|done].
  apply find_some in Hf as [Hin He%bool_decide_eq_true].
  by apply list_elem_of_In, Hne in Hin.
Qed.

Lemma find_fresh_id db (u : User.t) :
  Inv db → User._id u = oid db →
  find (has_id User._id (User._id u)) (users db ++ [u]) = Some u.
Proof.
  intros HI Hid. pose proof (inv_user_ids _ HI) as Hlt.
  induction (users db) as [|x us IH]; cbn.
  - unfold has_id. by rewrite bool_decide_eq_true_2.
  - apply Forall_cons in Hlt as [Hx Hus].
    unfold has_id at 1. rewrite bool_decide_eq_false_2 by lia. by apply IH.
Qed.

Lemma invalid_paths_nil (u : User.t) :
  truthy_string (User.name u) = true → truthy_string (User.email u) = true →
  User.orders u = [] → User.cart u = [] →
  User.invalid_paths u = [].
Proof. intros Hn He Ho Hc. apply user_ok_iff. by rewrite Ho, Hc. Qed.

Lemma invalid_paths_cons (u : User.t) :
  truthy_string (User.name u) && truthy_string (User.email u) = false →
  ∃ path paths, User.invalid_paths u = path :: paths.
Proof.
  unfold User.invalid_paths, required_errors.
  destruct (truthy_string (User.name u)), (truthy_string (User.email u));
    cbn [andb app]; [done|by eauto..].
Qed.

(** C6, as the code has it. In every reachable state [register] answers
    400 ['User already exists'] whenever a user with the given email
    exists, and then the database is exactly as before.  Otherwise, when
    name and email are both given and non-empty, it stores one new user
    with the given name, email and phone, an empty cart and no orders, and
    answers with that record, which from then on is found under its id.
    Otherwise, when name or email is missing or empty, the store's
    validation error comes back as a 500 failure and neither collection
    changes. *)
Theorem register_conflict_or_create db b now :
  reachable db →
  (∀ existing,
     existing ∈ users db → User.email existing = RegisterBody.email b →
     handle (POST_users_register b) now db =
       (res_status_json 400 (failure "User already exists"), db)) ∧
  ((∀ u, u ∈ users db → User.email u ≠ RegisterBody.email b) →
   truthy_string (RegisterBody.name b) = true →
   truthy_string (RegisterBody.email b) = true →
   ∃ user,
     handle (POST_users_register b) now db =
       (res_json (success (DUser user)),
        mkDb (products db) (users db ++ [user]) (N.succ (oid db))) ∧
     User.name user = RegisterBody.name b ∧
     User.email user = RegisterBody.email b ∧
     User.phone user = RegisterBody.phone b ∧
     User.cart user = [] ∧
     User.orders user = [] ∧
     find (has_id User._id (User._id user)) (users db ++ [user]) = Some user) ∧
  ((∀ u, u ∈ users db → User.email u ≠ RegisterBody.email b) →
   truthy_string (RegisterBody.name b) && truthy_string (RegisterBody.email b) = false →
   ∃ error db',
     handle (POST_users_register b) now db =
       (res_status_json 500 (failure error), db') ∧
     users db' = users db ∧ products db' = products db).
Proof.
  intros Hr. pose proof (reachable_Inv _ Hr) as HI. split_and!.
  - intros existing Hin He.
    destruct (find_email_Some _ _ _ Hin He) as [u Hf].
    cbn [handle]. unfold try_catch_500. rewrite register_run. cbn zeta.
    by rewrite Hf.
  - intros Hne%find_email_None Hn He.
    cbn [handle]. unfold try_catch_500. rewrite register_run. cbn zeta.
    rewrite Hne, invalid_paths_nil by done.
    eexists. split; [reflexivity|]. split_and!; try done.
    by apply find_fresh_id.
  - intros Hne%find_email_None Hv.
    cbn [handle]. unfold try_catch_500. rewrite register_run. cbn zeta.
    rewrite Hne.
    match goal with |- context [User.invalid_paths ?u] =>
      destruct (invalid_paths_cons u Hv) as (path & paths & ->) end.
    by eexists _, _.
Qed.

(** ** The catalog *)

Lemma find_unique_id {D} (id_of : D → ObjectId) (c : list D) d :
  NoDup (map id_of c) → d ∈ c → find (has_id id_of (id_of d)) c = Some d.
Proof.
  induction c as [|x c IH]; cbn; [by intros _ ?%elem_of_nil|].
  intros [Hx Hc]%NoDup_cons [->|Hin]%elem_of_cons.
  - unfold has_id. by rewrite bool_decide_eq_true_2.
  - unfold has_id at 1. rewrite bool_decide_eq_false_2; [by apply IH|].
    intros Heq. apply Hx. rewrite Heq.
    apply list_elem_of_In, in_map, list_elem_of_In, Hin.
Qed.

Lemma find_absent_id {D} (id_of : D → ObjectId) (c : list D) k :
  (∀ d, d ∈ c → id_of d ≠ k) → find (has_id id_of k) c = None.
Proof.
  intros Hne. destruct (find _ c) as [d|] eqn:Hf; [|done].
  apply find_has_id in Hf as [Hk Hin]. by apply Hne in Hin.
Qed.

(** C7, as the code has it. In every reachable state [getById] answers
    with the one product that has the id when there is one, and with 404
    ['Product not found'] when the id is an ObjectId that no product has.
    A malformed id is not answered with NotFound: the cast error of the
    store comes back as a 500 failure with the error's message.  The
    database is untouched in all three cases. *)
Theorem getById_found_absent_malformed db now :
  reachable db →
  (∀ p, p ∈ products db →
        handle (GET_product (ValidId (Product._id p))) now db =
          (res_json (success (DProduct p)), db) ∧
        ∀ q, q ∈ products db → Product._id q = Product._id p → q = p) ∧
  (∀ k, (∀ p, p ∈ products db → Product._id p ≠ k) →
        handle (GET_product (ValidId k)) now db =
          (res_status_json 404 (failure "Product not found"), db)) ∧
  (∀ raw,
     handle (GET_product (InvalidId raw)) now db =
       (res_status_json 500
          (failure (message (CastError "ObjectId" raw "_id" "Product"))), db)).
Proof.
  intros Hr. pose proof (reachable_Inv _ Hr) as HI.
  pose proof (inv_product_ids_nodup _ HI) as Hnd. split_and!.
  - intros p Hin. split.
    + cbn [handle]. unfold try_catch_500, getProduct. run.
      by rewrite (find_unique_id _ _ _ Hnd Hin).
    + intros q Hq Heq.
      pose proof (find_unique_id _ _ _ Hnd Hin) as Hp.
      pose proof (find_unique_id _ _ _ Hnd Hq) as Hq'.
      rewrite Heq in Hq'. congruence.
  - intros k Hne. cbn [handle]. unfold try_catch_500, getProduct. run.
    by rewrite (find_absent_id _ _ _ Hne).
  - intros raw. reflexivity.
Qed.

Lemma field_matches_lower test field :
  caseless test → field_matches test (lower <$> field) = field_matches test field.
Proof. intros Hc. destruct field as [text|]; cbn; [by rewrite <- Hc | done]. Qed.

(** C8. When the store accepts the query as a pattern, [search] answers
    with exactly the stored products that are in stock and whose name,
    description or category (at least one of them) passes the test the
    pattern compiles to under option [i], the case-insensitive one; no
    product with [inStock = false] is among them; and as that test ignores
    case, a product is returned or not whatever the case of its fields. *)
Theorem search_matches_in_stock db query test now :
  regex query "i" = Some test →
  ∃ found,
    handle (GET_products_search query) now db =
      (res_json (success (DProducts found)), db) ∧
    (∀ p, p ∈ found ↔
          p ∈ products db ∧ Product.inStock p = true ∧
          (field_matches test (Product.name p) = true ∨
           field_matches test (Product.description p) = true ∨
           field_matches test (Product.category p) = true)) ∧
    (∀ p, p ∈ found → Product.inStock p ≠ false) ∧
    (caseless test →
     ∀ p, p ∈ found ↔
          p ∈ products db ∧ Product.inStock p = true ∧
          (field_matches test (lower <$> Product.name p) = true ∨
           field_matches test (lower <$> Product.description p) = true ∨
           field_matches test (lower <$> Product.category p) = true)).
Proof.
  intros Hq. eexists. split.
  { cbn [handle]. unfold try_catch_500, searchProducts, Product_search.
    rewrite Hq. run. reflexivity. }
  assert (Hmem : ∀ p,
    p ∈ List.filter (λ p, (field_matches test (Product.name p)
                           || field_matches test (Product.description p)
                           || field_matches test (Product.category p))
                          && Product.inStock p) (products db) ↔
    p ∈ products db ∧ Product.inStock p = true ∧
    (field_matches test (Product.name p) = true ∨
     field_matches test (Product.description p) = true ∨
     field_matches test (Product.category p) = true)).
  { intros p. rewrite list_elem_of_In, filter_In, <- list_elem_of_In.
    rewrite andb_true_iff, !orb_true_iff. tauto. }
  split_and!.
  - exact Hmem.
  - intros p [_ [Hs _]]%Hmem. by rewrite Hs.
  - intros Hc p. rewrite !field_matches_lower by done. apply Hmem.
Qed.

(** ** The shape of the responses *)

Ltac answer :=
  first
    [ left; eexists; reflexivity
    | right; left; eexists _, _; split; [reflexivity | cbn; tauto] ].

Lemma handle_response req now db :
  (∃ d, fst (handle req now db) = res_json (success d)) ∨
  (∃ code error,
     fst (handle req now db) = res_status_json code (failure error) ∧
     (code = 400 ∨ code = 404 ∨ code = 500)%Z) ∨
  (req = GET_health ∧
   fst (handle req now db) = res_json [("status", JString "OK"); ("timestamp", JTime now)]).
Proof.
  destruct req as [|id|query|b|id|id b|id|id|id|fetched| |]; cbn [handle].
  - answer.
  - unfold try_catch_500, getProduct. run.
    destruct id as [k|raw]; [destruct (find _ _)|]; answer.
  - unfold try_catch_500, searchProducts, Product_search. run.
    destruct (regex query "i"); answer.
  - unfold try_catch_500. rewrite register_run. cbn zeta.
    destruct (find _ _); [answer|]. destruct (User.invalid_paths _); answer.
  - unfold try_catch_500, getUser. run.
    destruct id as [k|raw]; [destruct (find _ _)|]; answer.
  - unfold try_catch_500. rewrite addToCart_run.
    destruct id as [k|raw]; [destruct (find _ _) as [user|]|]; try answer.
    cbn zeta. destruct (User.invalid_paths _); answer.
  - unfold try_catch_500, getCart. run.
    destruct id as [k|raw]; [destruct (find _ _)|]; answer.
  - unfold try_catch_500. rewrite placeOrder_run.
    destruct id as [k|raw]; [destruct (find _ _) as [user|]|]; try answer.
    cbn zeta. destruct (User.invalid_paths _); answer.
  - unfold try_catch_500, getOrders. run.
    destruct id as [k|raw]; [destruct (find _ _)|]; answer.
  - unfold try_catch_500, getShopData.
    destruct fetched as [msg|[[[] [data|]]|]]; try answer.
    cbn [Remote.success Remote.data]. rewrite storeShopData_run. answer.
  - answer.
  - right. right. by split.
Qed.

(** C9, as the code has it. Every response of every route other than
    [/health] is [{success: true, data}] or [{success: false, error}];
    [/health] answers [{status: 'OK', timestamp}], which is neither.  A
    response that reports a failure carries status 400, 404 or 500, never
    a 2xx one, and a success envelope carries status 200. *)
Theorem responses_enveloped_except_health req now db :
  (req ≠ GET_health → enveloped (fst (handle req now db))) ∧
  (req = GET_health →
   fst (handle req now db) =
     res_json [("status", JString "OK"); ("timestamp", JTime now)]) ∧
  (reports_failure (fst (handle req now db)) →
   ¬ is_2xx (status (fst (handle req now db))) ∧
   (status (fst (handle req now db)) = 400 ∨
    status (fst (handle req now db)) = 404 ∨
    status (fst (handle req now db)) = 500)%Z) ∧
  (∀ d, body (fst (handle req now db)) = success d →
        status (fst (handle req now db)) = 200%Z).
Proof.
  destruct (handle_response req now db)
    as [[d Hd]|[(code & error & Hr & Hc)|[Hh Hr]]].
  - rewrite Hd. split_and!.
    + intros _. left. by eexists.
    + intros ->. discriminate Hd.
    + intros [rest Hrest]. discriminate Hrest.
    + done.
  - rewrite Hr. split_and!.
    + intros _. right. by eexists.
    + intros ->. discriminate Hr.
    + intros _. cbn. unfold is_2xx. lia.
    + intros d Hd. discriminate Hd.
  - rewrite Hr. split_and!.
    + done.
    + done.
    + intros [rest Hrest]. discriminate Hrest.
    + intros d Hd. discriminate Hd.
Qed.

(** ** The catalog refresher *)

Lemma or_number_not_nan x : PrimFloat.is_nan (or_number x 0) = false.
Proof.
  unfold or_number, truthy_number.
  destruct (PrimFloat.is_zero x), (PrimFloat.is_nan x) eqn:Hn; cbn; done.
Qed.

Lemma or_number_nan x : PrimFloat.is_nan x = true → or_number x 0 = 0%float.
Proof.
  unfold or_number, truthy_number. intros ->. by rewrite orb_true_r.
Qed.

(** What [parseFloat(price) || 0] gives for each kind of remote price. *)
Lemma price_of_number x :
  or_number (parseFloat (Remote.PriceNumber x)) 0 = if truthy_number x then x else 0%float.
Proof.
  unfold or_number, parseFloat, truthy_number.
  destruct (PrimFloat.is_zero x) eqn:Hz; [done|]. by rewrite Hz.
Qed.

Lemma valid_product_of item now k :
  valid_product (product_of item now k) = insertable item.
Proof.
  unfold valid_product, insertable, Product.invalid_paths, product_of, required_errors.
  cbn. rewrite or_number_not_nan. by destruct (truthy_string _).
Qed.

Lemma elem_of_filter_built items now k p :
  p ∈ List.filter valid_product (built items now k) ↔
  ∃ i item, items !! i = Some item ∧ insertable item = true ∧
            p = product_of item now (k + N.of_nat i)%N.
Proof.
  revert k. induction items as [|x items IH]; intros k; cbn [built List.filter].
  - split; [by intros ?%elem_of_nil | by intros (i & item & ? & _)].
  - assert (Hrest : p ∈ List.filter valid_product (built items now (N.succ k)) ↔
              ∃ i item, (x :: items) !! S i = Some item ∧ insertable item = true ∧
                        p = product_of item now (k + N.of_nat (S i))%N).
    { rewrite IH. apply exist_proper; intros i. apply exist_proper; intros item.
      cbn [lookup list_lookup].
      by replace (N.succ k + N.of_nat i)%N with (k + N.of_nat (S i))%N by lia. }
    rewrite valid_product_of. destruct (insertable x) eqn:Hx.
    + rewrite elem_of_cons, Hrest. split.
      * intros [->|(i & item & ?)]; [|by exists (S i), item].
        exists 0%nat, x. by rewrite N.add_0_r.
      * intros ([|i] & item & Hl & Hi & ->).
        -- left. injection Hl as ->. by rewrite N.add_0_r.
        -- right. by exists i, item.
    + rewrite Hrest. split.
      * intros (i & item & ?). by exists (S i), item.
      * intros ([|i] & item & Hl & Hi & ->); [|by exists i, item].
        injection Hl as ->. congruence.
Qed.

Lemma forallb_built_false items now k item :
  item ∈ items → insertable item = false →
  forallb valid_product (built items now k) = false.
Proof.
  revert k. induction items as [|x items IH]; intros k; cbn [built forallb].
  - by intros ?%elem_of_nil.
  - rewrite valid_product_of.
    intros [->|Hin]%elem_of_cons Hi; [by rewrite Hi|].
    rewrite (IH _ Hin Hi). apply andb_false_r.
Qed.

Lemma forallb_built_true items now k :
  forallb valid_product (built items now k) = true →
  List.filter valid_product (built items now k) = built items now k ∧
  ∀ item, item ∈ items → insertable item = true.
Proof.
  revert k. induction items as [|x items IH]; intros k; cbn [built forallb List.filter].
  - split; [done | by intros item ?%elem_of_nil].
  - intros [Hx Hrest]%andb_true_iff. rewrite Hx.
    destruct (IH _ Hrest) as [-> Hall]. split; [done|].
    intros item [->|Hin]%elem_of_cons; [by rewrite <- (valid_product_of _ now k) | auto].
Qed.

Lemma filter_built_none items now k :
  (∀ item, item ∈ items → insertable item = false) →
  List.filter valid_product (built items now k) = [].
Proof.
  revert k. induction items as [|x items IH]; intros k Hall; cbn [built List.filter].
  - done.
  - rewrite valid_product_of, (Hall x) by (apply elem_of_cons; by left).
    apply IH. intros item Hin. apply Hall. apply elem_of_cons. by right.
Qed.

Lemma refresh_run db now shopData data :
  Remote.success shopData = true → Remote.data shopData = Some data →
  handle (GET_shop_data (Remote.ResponseEnd (Some shopData))) now db =
  (res_json (success
     (if forallb valid_product (built (default [] (Remote.products data)) now (oid db))
      then DShopSummary
             (ShopSummary.mk (Remote.shopName data) (Remote.appName data)
                (Remote.gstNumber data) (default [] (Remote.products data))
                (Remote.lastUpdated data))
      else DShopData data)),
   mkDb (arrival (List.filter valid_product
                    (built (default [] (Remote.products data)) now (oid db))))
        (users db)
        (oid db + N.of_nat (length (default [] (Remote.products data))))%N).
Proof.
  intros Hs Hd. cbn [handle]. unfold try_catch_500, getShopData.
  rewrite Hs, Hd, storeShopData_run. reflexivity.
Qed.

(** C3. When the fetch ends in a transport error, in a body that is not
    valid JSON, or in a payload whose [success] does not hold, the
    refresher answers with a failure envelope under a non-2xx status (500,
    500 and 404) and the database is exactly as before: nothing is deleted
    and nothing is inserted. *)
Theorem refresh_failure_leaves_store db now :
  (∀ shopData,
     Remote.success shopData = false →
     handle (GET_shop_data (Remote.ResponseEnd (Some shopData))) now db =
       (res_status_json 404 (failure "Shop data not found"), db)) ∧
  handle (GET_shop_data (Remote.ResponseEnd None)) now db =
    (res_status_json 500 (failure "Failed to parse shop data"), db) ∧
  (∀ msg,
     handle (GET_shop_data (Remote.RequestError msg)) now db =
       (res_status_json 500 (failure "Failed to fetch shop data from main server"), db)) ∧
  (∀ fetched,
     match fetched with
     | Remote.ResponseEnd (Some shopData) => Remote.success shopData = false
     | _ => True
     end →
     reports_failure (fst (handle (GET_shop_data fetched) now db)) ∧
     ¬ is_2xx (status (fst (handle (GET_shop_data fetched) now db))) ∧
     products (snd (handle (GET_shop_data fetched) now db)) = products db).
Proof.
  split_and!.
  - intros shopData Hs. cbn [handle]. unfold try_catch_500, getShopData.
    by rewrite Hs.
  - reflexivity.
  - reflexivity.
  - intros [msg|[shopData|]] Hf; cbn [handle]; unfold try_catch_500, getShopData;
      rewrite ?Hf; cbn; (split_and!; [by eexists | unfold is_2xx; lia | done]).
Qed.

(** C4, as the code has it. When [shopData.success] holds and the save of
    at least one remote item is rejected, the refresher still answers 200
    with [success: true] and the remote payload [shopData.data] itself as
    data.  The store is then not empty in general: the earlier products
    are gone (in a reachable state none of them is left), and the
    collection holds exactly the documents of the remote items whose own
    save went through; it is empty when every save was rejected. *)
Theorem refresh_insert_failure_masked db now shopData data failing :
  reachable db →
  Remote.success shopData = true →
  Remote.data shopData = Some data →
  failing ∈ default [] (Remote.products data) →
  insertable failing = false →
  ∃ db',
    handle (GET_shop_data (Remote.ResponseEnd (Some shopData))) now db =
      (res_json (success (DShopData data)), db') ∧
    status (res_json (success (DShopData data))) = 200%Z ∧
    users db' = users db ∧
    (∀ p, p ∈ products db' ↔
          ∃ i item, default [] (Remote.products data) !! i = Some item ∧
                    insertable item = true ∧
                    p = product_of item now (oid db + N.of_nat i)%N) ∧
    (∀ p, p ∈ products db → p ∉ products db') ∧
    ((∀ item, item ∈ default [] (Remote.products data) → insertable item = false) →
     products db' = []).
Proof.
  intros Hr Hs Hd Hin Hfail. pose proof (reachable_Inv _ Hr) as HI.
  eexists. split.
  { rewrite (refresh_run _ _ _ _ Hs Hd).
    by rewrite (forallb_built_false _ _ _ _ Hin Hfail). }
  cbn [products users]. split_and!; try done.
  - intros p. rewrite elem_of_arrival. apply elem_of_filter_built.
  - intros p Hold [_ Hnew]%arrived_built_ids.
    apply (proj1 (Forall_forall _ _) (inv_product_ids _ HI)) in Hold. lia.
  - intros Hnone. rewrite filter_built_none by done.
    apply Permutation_nil_r, arrival_permutation.
Qed.

(** C5. For every remote item the document the refresher builds takes its
    name from the item's [name] and, when that is absent, from
    [productName]; has a price that is a number: the remote price itself
    when that is a number other than zero and NaN, the number [parseFloat]
    reads from a remote text when there is one other than zero, and 0 in
    every other case (no price, a zero, a text without a number); has
    category ['General'] when the item has none; and is in stock.  After a
    refresh in which every save went through, an item that came with only a
    [productName] is in the catalog under that name and with the price
    just described: [getById] on its id returns it and the list of
    available products contains it. *)
Theorem refresher_mapping_round_trip db now :
  (∀ item,
     ∃ p, new_Product item now db = (Ok p, set_oid (N.succ (oid db)) db) ∧
          (truthy_string (Remote.name item) = true → Product.name p = Remote.name item) ∧
          (Remote.name item = None → Product.name p = Remote.productName item) ∧
          (∃ x, Product.price p = Some x ∧ PrimFloat.is_nan x = false ∧
                (PrimFloat.is_nan (parseFloat (Remote.price item)) = true → x = 0%float) ∧
                (truthy_number (parseFloat (Remote.price item)) = true →
                 x = parseFloat (Remote.price item))) ∧
          (∀ x, Remote.price item = Remote.PriceNumber x →
                Product.price p = Some (if truthy_number x then x else 0%float)) ∧
          (Remote.price item = Remote.PriceAbsent → Product.price p = Some 0%float) ∧
          (∀ s, Remote.price item = Remote.PriceText s →
                Product.price p =
                  Some (if truthy_number (parseFloat_text s) then parseFloat_text s
                        else 0%float)) ∧
          (Remote.category item = None → Product.category p = Some "General") ∧
          (truthy_string (Remote.category item) = true →
           Product.category p = Remote.category item) ∧
          Product.inStock p = true) ∧
  (∀ shopData data summary item productName later,
     Remote.success shopData = true →
     Remote.data shopData = Some data →
     fst (handle (GET_shop_data (Remote.ResponseEnd (Some shopData))) now db) =
       res_json (success (DShopSummary summary)) →
     item ∈ default [] (Remote.products data) →
     Remote.name item = None →
     Remote.productName item = Some productName →
     ∃ p found,
       p ∈ products (snd (handle (GET_shop_data (Remote.ResponseEnd (Some shopData))) now db)) ∧
       Product.name p = Some productName ∧
       (∀ x, Remote.price item = Remote.PriceNumber x →
             Product.price p = Some (if truthy_number x then x else 0%float)) ∧
       (Remote.price item = Remote.PriceAbsent → Product.price p = Some 0%float) ∧
       (∀ s, Remote.price item = Remote.PriceText s →
             Product.price p =
               Some (if truthy_number (parseFloat_text s) then parseFloat_text s
                     else 0%float)) ∧
       handle (GET_product (ValidId (Product._id p))) later
              (snd (handle (GET_shop_data (Remote.ResponseEnd (Some shopData))) now db)) =
         (res_json (success (DProduct p)),
          snd (handle (GET_shop_data (Remote.ResponseEnd (Some shopData))) now db)) ∧
       handle GET_products later
              (snd (handle (GET_shop_data (Remote.ResponseEnd (Some shopData))) now db)) =
         (res_json (success (DProducts found)),
          snd (handle (GET_shop_data (Remote.ResponseEnd (Some shopData))) now db)) ∧
       p ∈ found).
Proof.
  split.
  - intros item. eexists. split; [reflexivity|]. cbn. split_and!.
    + unfold or_string. by intros ->.
    + unfold or_string. by intros ->.
    + eexists. split; [reflexivity|]. split_and!.
      * apply or_number_not_nan.
      * apply or_number_nan.
      * unfold or_number. by intros ->.
    + intros x ->. by rewrite price_of_number.
    + by intros ->.
    + by intros s ->.
    + unfold or_string. by intros ->.
    + unfold or_string. by intros ->.
    + done.
  - intros shopData data summary item productName later Hs Hd Hok Hin Hn Hp.
    rewrite (refresh_run _ _ _ _ Hs Hd) in *. cbn [fst snd] in *.
    destruct (forallb valid_product _) eqn:Hall; [|discriminate Hok].
    apply forallb_built_true in Hall as [Hfilter Hall].
    apply list_elem_of_lookup in Hin as [i Hi].
    set (p := product_of item now (oid db + N.of_nat i)%N).
    assert (Hmem : p ∈ arrival (List.filter valid_product
                     (built (default [] (Remote.products data)) now (oid db)))).
    { apply elem_of_arrival, elem_of_filter_built. exists i, item. split_and!; try done.
      apply Hall. apply list_elem_of_lookup. by exists i. }
    exists p. eexists. split_and!.
    + exact Hmem.
    + cbn. unfold or_string. by rewrite Hn.
    + intros x Hx. cbn. by rewrite Hx, price_of_number.
    + intros Hx. cbn. by rewrite Hx.
    + intros t Hx. cbn. by rewrite Hx.
    + cbn [handle]. unfold try_catch_500, getProduct. run.
      cbn [products].
      by rewrite (find_unique_id _ _ _
                    (NoDup_arrival_ids _ (filter_built_NoDup _ _ _)) Hmem).
    + reflexivity.
    + cbn [products]. apply list_elem_of_In, filter_In. split.
      * by apply list_elem_of_In.
      * done.
Qed.

(** ** Further invariants of the reachable states *)

Lemma product_of_ok item now k :
  insertable item = true → product_ok (product_of item now k).
Proof.
  intros Hi. split; cbn.
  - done.
  - exact Hi.
  - eexists. split; [reflexivity | apply or_number_not_nan].
  - unfold or_string. by destruct (truthy_string (Remote.category item)) eqn:Hc.
  - unfold or_string. destruct (truthy_string (Remote.description item)) eqn:Hd; [|by eexists].
    destruct (Remote.description item); [by eexists | done].
Qed.

Lemma filter_in_stock (ps : list Product.t) :
  Forall product_ok ps → List.filter Product.inStock ps = ps.
Proof.
  induction 1 as [|p ps Hp _ IH]; cbn; [done|].
  by rewrite (product_in_stock _ Hp), IH.
Qed.

Lemma products_only_by_refresh req now db :
  writes_products req = false → products (handle req now db).2 = products db.
Proof.
  destruct req as [|id|query|b|id|id b|id|id|id|fetched| |];
    intros Hw; try discriminate Hw; cbn [handle]; rewrite ?try_catch_500_db.
  - done.
  - by rewrite getProduct_db.
  - by rewrite searchProducts_db.
  - rewrite register_run. cbn zeta. destruct (find _ _); [done|].
    by destruct (User.invalid_paths _).
  - by rewrite getUser_db.
  - rewrite addToCart_run. destruct id as [k|raw]; [|done].
    destruct (find _ _) as [user|]; [|done]. cbn zeta.
    by destruct (User.invalid_paths _).
  - by rewrite getCart_db.
  - rewrite placeOrder_run. destruct id as [k|raw]; [|done].
    destruct (find _ _) as [user|]; [|done]. cbn zeta.
    by destruct (User.invalid_paths _).
  - by rewrite getOrders_db.
  - done.
  - done.
Qed.

Lemma users_only_by_user_routes req now db :
  writes_users req = false → users (handle req now db).2 = users db.
Proof.
  destruct req as [|id|query|b|id|id b|id|id|id|fetched| |];
    intros Hw; try discriminate Hw; cbn [handle]; rewrite ?try_catch_500_db.
  - done.
  - by rewrite getProduct_db.
  - by rewrite searchProducts_db.
  - by rewrite getUser_db.
  - by rewrite getCart_db.
  - by rewrite getOrders_db.
  - unfold getShopData. destruct fetched as [msg|[[[] [data|]]|]]; try done.
    cbn [Remote.success Remote.data]. by rewrite storeShopData_run.
  - done.
  - done.
Qed.

Lemma catalog_step req now db :
  Forall product_ok (products db) → Forall product_ok (products (handle req now db).2).
Proof.
  intros Hok. destruct (writes_products req) eqn:Hw.
  - destruct req as [| | | | | | | | |fetched| |]; try discriminate Hw.
    cbn [handle]. rewrite try_catch_500_db. unfold getShopData.
    destruct fetched as [msg|[[[] [data|]]|]]; try done.
    cbn [Remote.success Remote.data]. rewrite storeShopData_run. cbn [snd products].
    apply Forall_forall.
    intros p (i & item & _ & Hi & ->)%elem_of_arrival%elem_of_filter_built.
    by apply product_of_ok.
  - by rewrite products_only_by_refresh.
Qed.

(** X1. In every reachable state every stored product is in stock and has
    a non-empty name, a price that is a number, a non-empty category and a
    description; hence GET /api/products answers with the whole Product
    collection, in store order, and changes nothing. *)
Theorem catalog_all_available db now :
  reachable db →
  Forall product_ok (products db) ∧
  handle GET_products now db = (res_json (success (DProducts (products db))), db).
Proof.
  intros Hr.
  assert (Hok : Forall product_ok (products db)).
  { induction Hr as [|db req now' _ IH]; [constructor | by apply catalog_step]. }
  split; [exact Hok|].
  cbn [handle]. unfold try_catch_500, getProducts. run.
  by rewrite (filter_in_stock _ Hok).
Qed.




(** ** Reading routes, and what each route may write *)

Lemma reads_db req now db : writes req = false → (handle req now db).2 = db.
Proof.
  destruct req as [|id|query|b|id|id b|id|id|id|fetched| |];
    intros Hw; try discriminate Hw; cbn [handle]; rewrite ?try_catch_500_db.
  - done.
  - by rewrite getProduct_db.
  - by rewrite searchProducts_db.
  - by rewrite getUser_db.
  - by rewrite getCart_db.
  - by rewrite getOrders_db.
  - done.
  - done.
Qed.

(** X3. The eight routes that never call [save] or [deleteMany] (every GET
    but /api/shop-data) return the database as they got it; so asking
    again, at any later time, gives the identical answer, except for
    /api/app-config and /health, whose answers carry the clock reading. *)
Theorem reads_change_nothing req now later db :
  writes req = false →
  snd (handle req now db) = db ∧
  (clocked req = false →
   handle req later (snd (handle req now db)) = handle req now db).
Proof.
  intros Hw. split; [by apply reads_db|].
  intros Hc. rewrite (reads_db _ _ _ Hw).
  by destruct req; try discriminate Hw; try discriminate Hc.
Qed.

(** X4. Only /api/shop-data writes to the Product collection and it never
    touches the User collection; only register, add-to-cart and
    place-order write to the User collection and they never touch the
    Product collection.  This holds for every request on every database,
    whatever the answer. *)
Theorem collections_written_by_their_routes req now db :
  (writes_products req = false → products (snd (handle req now db)) = products db) ∧
  (writes_users req = false → users (snd (handle req now db)) = users db) ∧
  (writes_products req && writes_users req = false).
Proof.
  split_and!.
  - apply products_only_by_refresh.
  - apply users_only_by_user_routes.
  - by destruct req.
Qed.

(** X5. A response that reports a failure means that nothing was written:
    after any request answered with [success: false] both collections are
    exactly as before. *)
Theorem failure_writes_nothing req now db :
  reports_failure (fst (handle req now db)) →
  users (snd (handle req now db)) = users db ∧
  products (snd (handle req now db)) = products db.
Proof.
  destruct (writes req) eqn:Hw; [|intros _; by rewrite reads_db].
  destruct req as [| | |b| |id b| |id| |fetched| |]; try discriminate Hw;
    cbn [handle]; unfold try_catch_500.
  - rewrite register_run. cbn zeta. destruct (find _ _); [done|].
    destruct (User.invalid_paths _); [|done].
    intros [rest Hrest]. discriminate Hrest.
  - rewrite addToCart_run. destruct id as [k|raw]; [|done].
    destruct (find _ _) as [user|]; [|done]. cbn zeta.
    destruct (User.invalid_paths _); [|done].
    intros [rest Hrest]. discriminate Hrest.
  - rewrite placeOrder_run. destruct id as [k|raw]; [|done].
    destruct (find _ _) as [user|]; [|done]. cbn zeta.
    destruct (User.invalid_paths _); [|done].
    intros [rest Hrest]. discriminate Hrest.
  - unfold getShopData. destruct fetched as [msg|[[[] [data|]]|]]; try done.
    cbn [Remote.success Remote.data]. rewrite storeShopData_run.
    intros [rest Hrest]. discriminate Hrest.
Qed.

(** X6. The five routes under /api/users/:id answer a malformed id with
    status 500 and the cast error of the store (not with NotFound), and an
    id that no user has with 404 ['User not found']; in both cases the
    database is untouched. *)
Theorem user_routes_malformed_or_unknown db now b :
  (∀ raw,
     let answer :=
       (res_status_json 500 (failure (message (CastError "ObjectId" raw "_id" "User"))),
        db) in
     handle (GET_user (InvalidId raw)) now db = answer ∧
     handle (POST_user_cart (InvalidId raw) b) now db = answer ∧
     handle (GET_user_cart (InvalidId raw)) now db = answer ∧
     handle (POST_user_orders (InvalidId raw)) now db = answer ∧
     handle (GET_user_orders (InvalidId raw)) now db = answer) ∧
  (∀ k,
     (∀ u, u ∈ users db → User._id u ≠ k) →
     let answer := (res_status_json 404 (failure "User not found"), db) in
     handle (GET_user (ValidId k)) now db = answer ∧
     handle (POST_user_cart (ValidId k) b) now db = answer ∧
     handle (GET_user_cart (ValidId k)) now db = answer ∧
     handle (POST_user_orders (ValidId k)) now db = answer ∧
     handle (GET_user_orders (ValidId k)) now db = answer).
Proof.
  split.
  - intros raw. by split_and!.
  - intros k Hne%find_absent_id answer. unfold answer.
    cbn [handle]. unfold try_catch_500, getUser, addToCart, getCart, placeOrder, getOrders.
    run. by rewrite Hne.
Qed.

(** ** Users, carts and order histories *)

Lemma NoDup_map_eq {A B} (f : A → B) (l : list A) x y :
  NoDup (map f l) → x ∈ l → y ∈ l → f x = f y → x = y.
Proof.
  induction l as [|a l IH]; cbn; [by intros _ ?%elem_of_nil|].
  intros [Ha Hl]%NoDup_cons [->|Hx]%elem_of_cons [->|Hy]%elem_of_cons Heq; auto.
  - exfalso. apply Ha. rewrite Heq. by apply list_elem_of_In, in_map, list_elem_of_In.
  - exfalso. apply Ha. rewrite <- Heq. by apply list_elem_of_In, in_map, list_elem_of_In.
Qed.

(** X7. In every reachable state no two stored users share an id or an
    email, and every stored user has a non-empty name and a non-empty
    email. *)
Theorem users_unique_and_named db u v :
  reachable db → u ∈ users db → v ∈ users db →
  (User._id u = User._id v → u = v) ∧
  (User.email u = User.email v → u = v) ∧
  truthy_string (User.name u) = true ∧
  truthy_string (User.email u) = true.
Proof.
  intros HI%reachable_Inv Hu Hv. split_and!.
  - by apply (NoDup_map_eq _ _ _ _ (inv_user_ids_nodup _ HI)).
  - by apply (NoDup_map_eq _ _ _ _ (inv_emails_nodup _ HI)).
  - by pose proof (proj1 (Forall_forall _ _) (inv_users _ HI) _ Hu)
      as (Hn & _)%user_ok_iff.
  - by pose proof (proj1 (Forall_forall _ _) (inv_users _ HI) _ Hu)
      as (_ & He & _)%user_ok_iff.
Qed.

Lemma find_replaced_user (us : list User.t) u u' :
  find (has_id User._id (User._id u)) us = Some u →
  User._id u' = User._id u →
  find (has_id User._id (User._id u)) (replaceById User._id u' us) = Some u'.
Proof.
  intros Hf Hid. rewrite <- Hid in *. by apply (find_replaceById_eq User._id u') in Hf.
Qed.

(** X8. In every reachable state every stored user is served under its
    own id: the profile route answers with the document, the cart route
    with its cart, the orders route with its order history, and none of
    them changes the database. *)
Theorem stored_user_is_served db u now :
  reachable db → u ∈ users db →
  handle (GET_user (ValidId (User._id u))) now db = (res_json (success (DUser u)), db) ∧
  handle (GET_user_cart (ValidId (User._id u))) now db =
    (res_json (success (DCart (User.cart u))), db) ∧
  handle (GET_user_orders (ValidId (User._id u))) now db =
    (res_json (success (DOrders (User.orders u))), db).
Proof.
  intros HI%reachable_Inv Hu.
  pose proof (find_unique_id _ _ _ (inv_user_ids_nodup _ HI) Hu) as Hf.
  cbn [handle]. unfold try_catch_500, getUser, getCart, getOrders. run.
  by rewrite Hf.
Qed.




Lemma find_app_Some {A} (f : A → bool) (l l' : list A) x :
  find f l = Some x → find f (l ++ l') = Some x.
Proof.
  induction l as [|a l IH]; cbn; [done|]. by destruct (f a).
Qed.

Lemma same_profile_refl u : same_profile u u.
Proof. by repeat split. Qed.

Lemma same_profile_trans u v w : same_profile u v → same_profile v w → same_profile u w.
Proof.
  intros (?&?&?&?&?&?) (?&?&?&?&?&?). repeat split; congruence.
Qed.

Lemma history_step req now db k u :
  find (has_id User._id k) (users db) = Some u →
  ∃ u', find (has_id User._id k) (users (handle req now db).2) = Some u' ∧
        same_profile u u' ∧ User.orders u `prefix_of` User.orders u'.
Proof.
  intros Hu.
  assert (Hsame : ∃ u', find (has_id User._id k) (users db) = Some u' ∧
                        same_profile u u' ∧ User.orders u `prefix_of` User.orders u').
  { exists u. split_and!; [done | apply same_profile_refl | done]. }
  destruct (writes_users req) eqn:Hw;
    [|by rewrite users_only_by_user_routes].
  destruct req as [| | |b| |id b| |id| | | |]; try discriminate Hw;
    cbn [handle]; rewrite try_catch_500_db.
  - rewrite register_run. cbn zeta. destruct (find (λ u0, bool_decide (User.email u0 = _)) (users db)); [exact Hsame|].
    destruct (User.invalid_paths _); [|exact Hsame]. cbn.
    exists u. split_and!; [by apply find_app_Some | apply same_profile_refl | done].
  - rewrite addToCart_run. destruct id as [k0|raw]; [|exact Hsame].
    destruct (find (has_id User._id k0) (users db)) as [user|] eqn:Hf; [|exact Hsame].
    cbn zeta.
    destruct (User.invalid_paths _); [|exact Hsame]. cbn.
    pose proof (find_has_id _ _ _ _ Hf) as [Hk0 _].
    destruct (decide (k = k0)) as [->|Hne].
    + rewrite Hu in Hf. injection Hf as ->. rewrite <- Hk0 in *.
      eexists. split; [by apply find_replaced_user|].
      split; [by repeat split | done].
    + rewrite find_replaceById_ne by (cbn; congruence). exact Hsame.
  - rewrite placeOrder_run. destruct id as [k0|raw]; [|exact Hsame].
    destruct (find (has_id User._id k0) (users db)) as [user|] eqn:Hf; [|exact Hsame].
    cbn zeta.
    destruct (User.invalid_paths _); [|exact Hsame]. cbn.
    pose proof (find_has_id _ _ _ _ Hf) as [Hk0 _].
    destruct (decide (k = k0)) as [->|Hne].
    + rewrite Hu in Hf. injection Hf as ->. rewrite <- Hk0 in *.
      eexists. split; [by apply find_replaced_user|].
      split; [by repeat split | by eexists].
    + rewrite find_replaceById_ne by (cbn; congruence). exact Hsame.
Qed.

(** X11. Users and orders are never removed or edited: whatever requests
    are served, a user found under an id before is found under it
    afterwards with the same id, name, email, phone, address and creation
    date, and with an order history that starts with the earlier one. *)
Theorem histories_only_grow log db k u :
  find (has_id User._id k) (users db) = Some u →
  ∃ u', find (has_id User._id k) (users (serve log db)) = Some u' ∧
        same_profile u u' ∧ User.orders u `prefix_of` User.orders u'.
Proof.
  unfold serve. revert db u.
  induction log as [|[req now] log IH]; intros db u Hu; cbn [fold_left].
  - exists u. split_and!; [done | apply same_profile_refl | done].
  - destruct (history_step req now db k u Hu) as (v & Hv & Hp & Ho).
    destruct (IH _ _ Hv) as (w & Hw & Hp' & Ho').
    exists w. split_and!; [done | by eapply same_profile_trans | by etrans].
Qed.

(** X12. Registering again under the email of a registration that just
    succeeded is refused with 400 ['User already exists'], whatever the
    other fields are, and changes nothing. *)
Theorem register_twice_conflicts db b b' now later user db' :
  handle (POST_users_register b) now db = (res_json (success (DUser user)), db') →
  RegisterBody.email b' = RegisterBody.email b →
  handle (POST_users_register b') later db' =
    (res_status_json 400 (failure "User already exists"), db').
Proof.
  cbn [handle]. unfold try_catch_500. rewrite !register_run. cbn zeta.
  destruct (find _ (users db)); [discriminate|].
  destruct (User.invalid_paths _); [|discriminate].
  intros [= <- <-] He. cbn [users].
  edestruct (find_email_Some (RegisterBody.email b')) as [existing ->]; [| |done].
  - apply elem_of_app. right. apply elem_of_cons. by left.
  - by rewrite He.
Qed.

(** X13. The id of an order is made from the clock alone: two orders that
    were placed, for any users and on any databases, carry the same
    orderId exactly when they were placed at the same clock reading. *)
Theorem orderId_follows_clock db1 db2 id1 id2 now1 now2 order1 order2 :
  fst (handle (POST_user_orders id1) now1 db1) = res_json (success (DOrder order1)) →
  fst (handle (POST_user_orders id2) now2 db2) = res_json (success (DOrder order2)) →
  (Order.orderId order1 = Order.orderId order2 ↔ now1 = now2).
Proof.
  assert (Hid : ∀ db id now order,
    fst (handle (POST_user_orders id) now db) = res_json (success (DOrder order)) →
    Order.orderId order = "ORDER_" +:+ pretty now).
  { intros db id now order. cbn [handle]. unfold try_catch_500.
    rewrite placeOrder_run. destruct id as [k|raw]; [|discriminate].
    destruct (find _ _) as [user|]; [|discriminate]. cbn zeta.
    destruct (User.invalid_paths _); [|discriminate].
    by intros [= <-]. }
  intros ->%Hid ->%Hid. split; [|by intros ->].
  intros Heq. cbn in Heq. by simplify_eq.
Qed.




(** ** More on the refresher and the search *)

Lemma forallb_built_insertable items now k :
  (∀ item, item ∈ items → insertable item = true) →
  forallb valid_product (built items now k) = true.
Proof.
  revert k. induction items as [|x items IH]; intros k Hall; cbn [built forallb]; [done|].
  rewrite valid_product_of, (Hall x) by (apply elem_of_cons; by left).
  apply IH. intros item Hin. apply Hall, elem_of_cons. by right.
Qed.

Lemma built_mapping items now k :
  Forall2 (λ item p,
             Product.name p = or_string (Remote.name item) (Remote.productName item) ∧
             Product.price p = Some (or_number (parseFloat (Remote.price item)) 0) ∧
             Product.category p = or_string (Remote.category item) (Some "General") ∧
             Product.image p = Remote.image item ∧
             Product.createdAt p = now)
          items (built items now k).
Proof.
  revert k. induction items as [|x items IH]; intros k; cbn [built]; constructor; auto.
Qed.

Lemma built_ok items now k :
  (∀ item, item ∈ items → insertable item = true) →
  Forall product_ok (built items now k).
Proof.
  revert k. induction items as [|x items IH]; intros k Hall; cbn [built]; constructor.
  - apply product_of_ok, Hall, elem_of_cons. by left.
  - apply IH. intros item Hin. apply Hall, elem_of_cons. by right.
Qed.

(** X15. When the payload's [success] holds and every remote item has a
    usable name, the refresher answers with the merged summary, whose
    product list is the remote list itself, and the Product collection
    becomes exactly one document per remote item, with the item's name,
    price (or 0), category (or ['General']) and image, dated now: whatever
    was stored before is replaced.  The documents are in the collection in
    the order in which their saves reached the store, which need not be the
    remote order.  GET /api/products then answers with that whole
    collection.  The users are untouched. *)
Theorem refresh_replaces_catalog db now later shopData data :
  Remote.success shopData = true →
  Remote.data shopData = Some data →
  (∀ item, item ∈ default [] (Remote.products data) → insertable item = true) →
  ∃ db' docs,
    handle (GET_shop_data (Remote.ResponseEnd (Some shopData))) now db =
      (res_json (success (DShopSummary
         (ShopSummary.mk (Remote.shopName data) (Remote.appName data)
            (Remote.gstNumber data) (default [] (Remote.products data))
            (Remote.lastUpdated data)))), db') ∧
    users db' = users db ∧
    length (products db') = length (default [] (Remote.products data)) ∧
    Forall2 (λ item p,
               Product.name p = or_string (Remote.name item) (Remote.productName item) ∧
               Product.price p = Some (or_number (parseFloat (Remote.price item)) 0) ∧
               Product.category p = or_string (Remote.category item) (Some "General") ∧
               Product.image p = Remote.image item ∧
               Product.createdAt p = now)
            (default [] (Remote.products data)) docs ∧
    products db' ≡ₚ docs ∧
    products db' = arrival docs ∧
    (∀ p, p ∈ products db' → (oid db ≤ Product._id p)%N) ∧
    handle GET_products later db' = (res_json (success (DProducts (products db'))), db').
Proof.
  intros Hs Hd Hall. eexists. exists (built (default [] (Remote.products data)) now (oid db)).
  split.
  { rewrite (refresh_run _ _ _ _ Hs Hd).
    by rewrite (forallb_built_insertable _ _ _ Hall). }
  pose proof (forallb_built_true _ now (oid db) (forallb_built_insertable _ _ _ Hall))
    as [Hfilter _].
  cbn [users products]. rewrite Hfilter. split_and!.
  - done.
  - rewrite (arrival_permutation _).
    rewrite <- (Forall2_length _ _ _ (built_mapping _ now (oid db))). done.
  - apply built_mapping.
  - apply arrival_permutation.
  - done.
  - intros p Hin%elem_of_arrival%built_ids. lia.
  - cbn [handle]. unfold try_catch_500, getProducts. run. cbn [products].
    rewrite filter_in_stock; [done|].
    rewrite (arrival_permutation _). by apply built_ok.
Qed.

(** X16. A payload whose [success] holds but that has no product list, or
    an empty one, empties the Product collection: the refresher answers
    with the merged summary with no products, and whatever was stored is
    gone. *)
Theorem refresh_without_products_empties db now shopData data :
  Remote.success shopData = true →
  Remote.data shopData = Some data →
  Remote.products data = None ∨ Remote.products data = Some [] →
  ∃ db',
    handle (GET_shop_data (Remote.ResponseEnd (Some shopData))) now db =
      (res_json (success (DShopSummary
         (ShopSummary.mk (Remote.shopName data) (Remote.appName data)
            (Remote.gstNumber data) [] (Remote.lastUpdated data)))), db') ∧
    products db' = [] ∧ users db' = users db.
Proof.
  intros Hs Hd Hp. eexists. split.
  { rewrite (refresh_run _ _ _ _ Hs Hd). by destruct Hp as [-> | ->]. }
  cbn. split; [|done]. apply Permutation_nil_r, arrival_permutation.
Qed.

(** X17. When the store rejects the query as a pattern, the search route
    answers 500 with the message of the store's error, and the database
    is untouched. *)
Theorem search_rejected_pattern db query now :
  regex query "i" = None →
  ∃ error,
    handle (GET_products_search query) now db = (res_status_json 500 (failure error), db).
Proof.
  intros Hq. cbn [handle]. unfold try_catch_500, searchProducts, Product_search.
  rewrite Hq. by eexists.
Qed.

Lemma filter_and_sublist {A} (f g : A → bool) (l : list A) :
  List.filter (λ x, f x && g x) l `sublist_of` List.filter g l.
Proof.
  induction l as [|x l IH]; cbn; [constructor|].
  destruct (f x), (g x); cbn; try done; by constructor.
Qed.

(** X18. Whatever the query, what the search route returns is part of
    what GET /api/products returns at the same moment, in the same order:
    the search only leaves products out. *)
Theorem search_within_available db query test now :
  regex query "i" = Some test →
  ∃ found available,
    fst (handle (GET_products_search query) now db) = res_json (success (DProducts found)) ∧
    fst (handle GET_products now db) = res_json (success (DProducts available)) ∧
    found `sublist_of` available.
Proof.
  intros Hq. eexists _, _. split_and!.
  - cbn [handle]. unfold try_catch_500, searchProducts, Product_search.
    rewrite Hq. run. reflexivity.
  - reflexivity.
  - cbn [products]. apply filter_and_sublist.
Qed.

(** ** The request to the main server *)

Lemma prefix_empty s : String.prefix "" s = true.
Proof. by destruct s. Qed.

Lemma replace_absent pattern replacement s :
  contains pattern s = false → replace pattern replacement s = s.
Proof.
  induction s as [|c s IH]; cbn [contains replace].
  - by intros ->.
  - intros [-> Hs]%orb_false_iff. by rewrite IH.
Qed.

(** X19. The host the refresher asks is the configured URL with its scheme
    cut off and nothing else: for a host text that contains no scheme
    itself, [http://host] and [https://host] both give [host], so a port or
    a path written in the URL stays in the host name; with no URL
    configured, or an empty one, the host name is [localhost:3001].  The
    port is 3001 and the path is that of the fixed shop, whatever URL is
    configured. *)
Theorem request_options_strip_scheme host :
  contains "http://" host = false →
  contains "https://" host = false →
  RequestOptions.hostname (request_options (Some ("http://" +:+ host))) = host ∧
  RequestOptions.hostname (request_options (Some ("https://" +:+ host))) = host ∧
  (host ≠ "" → RequestOptions.hostname (request_options (Some host)) = host) ∧
  (∀ url, truthy_string url = false →
          RequestOptions.hostname (request_options url) = "localhost:3001") ∧
  (∀ url, RequestOptions.port (request_options url) = 3001%Z ∧
          RequestOptions.path (request_options url) =
            "/shop-data/6902176a312bc81a247cf58e").
Proof.
  intros Hhttp Hhttps. split_and!; [| | |by intros [[|c url]|] Hu|].
  - unfold request_options, mainServerUrl, or_string. cbv [String.append]. cbn.
    rewrite prefix_empty. cbn. by apply replace_absent.
  - unfold request_options, mainServerUrl, or_string. cbv [String.append]. cbn.
    rewrite (replace_absent _ _ _ Hhttp). cbn. by rewrite prefix_empty.
  - intros Hne. destruct host as [|c host]; [done|].
    unfold request_options, mainServerUrl, or_string. cbn [truthy_string default RequestOptions.hostname].
    by rewrite (replace_absent _ _ _ Hhttp), (replace_absent _ _ _ Hhttps).
  - done.
Qed.

End Verification.

(** ** The theorems at work on the sample data *)

Lemma db_stocked_products : products db_stocked = [coffee; scone].
Proof. reflexivity. Qed.

Lemma db_ann_shopping_users : users db_ann_shopping = [ann_shopping].
Proof. reflexivity. Qed.

Lemma reachable_sample log : @reachable literal_engine (@serve literal_engine log init).
Proof. apply reachable_serve, reachable_init. Qed.






(** C6 as the specification states it fails: no user has Bob's email, and yet
    [register] with no name creates nothing and answers 500. *)
Lemma register_without_name_counterexample :
  find (λ u, bool_decide (User.email u = RegisterBody.email nameless)) (users db_ann) = None ∧
  @handle literal_engine (POST_users_register nameless) 5000 db_ann =
    (res_status_json 500
       (failure "User validation failed: name: Path `name` is required."),
     set_oid 2 db_ann) ∧
  users (set_oid 2 db_ann) = users db_ann.
Proof. by split_and!. Qed.

Lemma register_conflict_or_create_witness :
  @reachable literal_engine init ∧
  (∃ user,
     @handle literal_engine (POST_users_register ann) 1000 init =
       (res_json (success (DUser user)), mkDb [] [user] 1) ∧
     User.name user = Some "Ann" ∧ User.cart user = [] ∧ User.orders user = []) ∧
  @handle literal_engine (POST_users_register ann) 6000 db_ann =
    (res_status_json 400 (failure "User already exists"), db_ann).
Proof.
  split; [apply reachable_init|]. split.
  - destruct (@register_conflict_or_create literal_engine init ann 1000 (@reachable_init _))
      as (_ & Hcreate & _).
    destruct Hcreate as (user & Hrun & Hname & _ & _ & Hcart & Horders & _);
      [by intros u ?%elem_of_nil|done|done|].
    exists user. by split_and!.
  - destruct (@register_conflict_or_create literal_engine db_ann ann 6000 (reachable_sample _))
      as (Hconflict & _).
    apply (Hconflict ann_registered); [|done]. apply elem_of_cons. by left.
Defined.

(** C7 as the specification states it fails: a malformed id is answered with status
    500 and the cast error, not with NotFound. *)
Lemma getById_malformed_counterexample :
  @handle literal_engine (GET_product (InvalidId "xyz")) 0 db_stocked =
    (res_status_json 500
       (failure (message (CastError "ObjectId" "xyz" "_id" "Product"))), db_stocked) ∧
  @handle literal_engine (GET_product (InvalidId "xyz")) 0 db_stocked ≠
    (res_status_json 404 (failure "Product not found"), db_stocked).
Proof. by split. Qed.

Lemma getById_found_absent_malformed_witness :
  @reachable literal_engine db_stocked ∧
  @handle literal_engine (GET_product (ValidId 1)) 0 db_stocked =
    (res_json (success (DProduct scone)), db_stocked) ∧
  @handle literal_engine (GET_product (ValidId 7)) 0 db_stocked =
    (res_status_json 404 (failure "Product not found"), db_stocked).
Proof.
  split; [apply reachable_sample|].
  destruct (@getById_found_absent_malformed literal_engine db_stocked 0 (reachable_sample _))
    as (Hfound & Habsent & _).
  split.
  - apply (Hfound scone). apply elem_of_cons. right. apply elem_of_cons. by left.
  - apply Habsent. intros p Hin.
    apply elem_of_cons in Hin as [->|Hin]; [done|].
    apply elem_of_cons in Hin as [->|Hin]; [done|]. by apply elem_of_nil in Hin.
Defined.

Lemma lower_ascii_idempotent a : lower_ascii (lower_ascii a) = lower_ascii a.
Proof. by destruct a as [[] [] [] [] [] [] [] []]. Qed.

Lemma lower_idempotent s : lower (lower s) = lower s.
Proof.
  induction s as [|a s IH]; cbn [lower]; [done|].
  by rewrite lower_ascii_idempotent, IH.
Qed.

(** Under option [i] the sample engine compiles to a test that ignores
    case. *)
Lemma literal_regex_caseless pattern test :
  literal_regex pattern "i" = Some test → caseless test.
Proof.
  unfold literal_regex. destruct (contains "(" pattern); [done|]. cbn.
  intros [= <-] text. by rewrite lower_idempotent.
Qed.

Lemma search_matches_in_stock_witness :
  @regex literal_engine "SCO" "i" = Some (λ text, contains (lower "SCO") (lower text)) ∧
  @handle literal_engine (GET_products_search "SCO") 0 db_stocked =
    (res_json (success (DProducts [scone])), db_stocked) ∧
  ∃ found,
    fst (@handle literal_engine (GET_products_search "SCO") 0 db_stocked) =
      res_json (success (DProducts found)) ∧
    scone ∈ found ∧ coffee ∉ found.
Proof.
  split; [reflexivity|]. split; [reflexivity|].
  destruct (@search_matches_in_stock literal_engine db_stocked "SCO"
              (λ text, contains (lower "SCO") (lower text)) 0 eq_refl)
    as (found & Hrun & Hexact & _ & _).
  exists found. rewrite Hrun. split; [reflexivity|]. split.
  - apply Hexact. split_and!; [|done|by left].
    apply elem_of_cons. right. apply elem_of_cons. by left.
  - intros (_ & _ & [Hm|[Hm|Hm]])%Hexact; discriminate Hm.
Defined.

(** C9 as the specification states it fails: the response of [/health] is in
    neither envelope. *)
Lemma health_not_enveloped_counterexample :
  fst (@handle literal_engine GET_health 0 init) =
    res_json [("status", JString "OK"); ("timestamp", JTime 0)] ∧
  ¬ enveloped (fst (@handle literal_engine GET_health 0 init)).
Proof.
  split; [reflexivity|]. intros [[d Hd]|[e He]]; discriminate.
Qed.

(** C4 as the specification states it fails: the save of the unnamed item is
    rejected, the answer is the success envelope with the payload, and the
    store is not empty: it holds the scone, whose save went through. *)
Lemma refresh_partial_insert_counterexample :
  insertable unnamed_item = false ∧
  @handle literal_engine
    (GET_shop_data (Remote.ResponseEnd (Some (shop [scone_item; unnamed_item])))) 900
    db_stocked =
  (res_json (success (DShopData (payload [scone_item; unnamed_item]))),
   mkDb [Product.mk 2 (Some "Scone") (Some 3%float) (Some "") None (Some "General") true 900]
        [] 4) ∧
  products (mkDb
    [Product.mk 2 (Some "Scone") (Some 3%float) (Some "") None (Some "General") true 900]
    [] 4) ≠ [].
Proof. by split_and!. Qed.

Lemma refresh_insert_failure_masked_witness :
  @reachable literal_engine db_stocked ∧
  unnamed_item ∈ [scone_item; unnamed_item] ∧
  insertable unnamed_item = false ∧
  ∃ db',
    @handle literal_engine
      (GET_shop_data (Remote.ResponseEnd (Some (shop [scone_item; unnamed_item])))) 900
      db_stocked =
    (res_json (success (DShopData (payload [scone_item; unnamed_item]))), db') ∧
    (coffee ∉ products db') ∧
    (@product_of literal_engine scone_item 900 2) ∈ products db'.
Proof.
  assert (Hin : unnamed_item ∈ [scone_item; unnamed_item]).
  { apply elem_of_cons. right. apply elem_of_cons. by left. }
  split; [apply reachable_sample|]. split; [exact Hin|]. split; [reflexivity|].
  destruct (@refresh_insert_failure_masked literal_engine db_stocked 900
              (shop [scone_item; unnamed_item]) (payload [scone_item; unnamed_item])
              unnamed_item (reachable_sample _) eq_refl eq_refl Hin eq_refl)
    as (db' & Hrun & _ & _ & Hnew & Hold & _).
  exists db'. split; [exact Hrun|]. split.
  - apply Hold. apply elem_of_cons. by left.
  - apply Hnew. by exists 0%nat, scone_item.
Defined.

Lemma refresher_mapping_round_trip_witness :
  (∃ p,
     Product.name p = Some "Scone" ∧
     Product.price p = Some 3%float ∧
     @handle literal_engine (GET_product (ValidId (Product._id p))) 700 db_stocked =
       (res_json (success (DProduct p)), db_stocked)) ∧
  (∃ q,
     @new_Product literal_engine coffee_item 500 init = (Ok q, set_oid 1 init) ∧
     Product.name q = Some "Coffee" ∧
     Product.price q = Some 4%float ∧
     Product.category q = Some "Drinks") ∧
  (∃ q,
     @new_Product literal_engine unnamed_item 500 init = (Ok q, set_oid 1 init) ∧
     Product.price q = Some 2%float ∧
     Product.category q = Some "General").
Proof.
  destruct (@refresher_mapping_round_trip literal_engine init 500) as [Hmap Hround].
  split_and!.
  - destruct (Hround (shop [coffee_item; scone_item]) (payload [coffee_item; scone_item])
                (ShopSummary.mk (Some "FunFood") (Some "FunFood App") (Some "GST-1")
                   [coffee_item; scone_item] (Some "2025-01-01T00:00:00.000Z"))
                scone_item "Scone" 700%Z eq_refl eq_refl eq_refl)
      as (p & found & _ & Hname & _ & _ & Hprice & Hget & _); try done.
    { apply elem_of_cons. right. apply elem_of_cons. by left. }
    exists p. split; [exact Hname|]. split; [exact (Hprice "3" eq_refl) | exact Hget].
  - destruct (Hmap coffee_item)
      as (q & Hq & Hname & _ & _ & Hprice & _ & _ & _ & Hcategory & _).
    exists q. split; [exact Hq|]. split; [by apply Hname|].
    split; [exact (Hprice 4%float eq_refl) | by apply Hcategory].
  - destruct (Hmap unnamed_item)
      as (q & Hq & _ & _ & _ & Hprice & _ & _ & Hgeneral & _).
    exists q. split; [exact Hq|]. split; [exact (Hprice 2%float eq_refl) | by apply Hgeneral].
Defined.

Lemma refresh_failure_leaves_store_witness :
  @handle literal_engine
    (GET_shop_data (Remote.ResponseEnd (Some (Remote.mkShopData false None)))) 900
    db_stocked =
  (res_status_json 404 (failure "Shop data not found"), db_stocked).
Proof.
  destruct (@refresh_failure_leaves_store literal_engine db_stocked 900) as (Hfail & _).
  by apply Hfail.
Defined.

(** ** The further properties at work on the sample data *)

Lemma db_ann_ordered_users : users db_ann_ordered = [ann_ordered].
Proof. reflexivity. Qed.

Lemma catalog_all_available_witness :
  @reachable literal_engine db_stocked ∧
  @handle literal_engine GET_products 800 db_stocked =
    (res_json (success (DProducts [coffee; scone])), db_stocked).
Proof.
  split; [apply reachable_sample|].
  destruct (@catalog_all_available literal_engine db_stocked 800 (reachable_sample _))
    as [_ Hlist].
  exact Hlist.
Defined.


Lemma reads_change_nothing_witness :
  writes (GET_user_cart (ValidId 0)) = false ∧
  snd (@handle literal_engine (GET_user_cart (ValidId 0)) 5000 db_ann_shopping) =
    db_ann_shopping ∧
  @handle literal_engine (GET_user_cart (ValidId 0)) 6000
    (snd (@handle literal_engine (GET_user_cart (ValidId 0)) 5000 db_ann_shopping)) =
  @handle literal_engine (GET_user_cart (ValidId 0)) 5000 db_ann_shopping.
Proof.
  split; [reflexivity|].
  destruct (@reads_change_nothing literal_engine (GET_user_cart (ValidId 0)) 5000 6000
              db_ann_shopping eq_refl) as [Hdb Hagain].
  split; [exact Hdb | by apply Hagain].
Defined.

Lemma failure_writes_nothing_witness :
  reports_failure (fst (@handle literal_engine (POST_user_cart (ValidId 9) tea) 5000 db_ann)) ∧
  users (snd (@handle literal_engine (POST_user_cart (ValidId 9) tea) 5000 db_ann)) =
    users db_ann.
Proof.
  assert (Hf : reports_failure
                 (fst (@handle literal_engine (POST_user_cart (ValidId 9) tea) 5000 db_ann)))
    by (by eexists).
  split; [exact Hf|].
  by destruct (@failure_writes_nothing literal_engine _ _ _ Hf) as [Hu _].
Defined.

Lemma users_unique_and_named_witness :
  @reachable literal_engine db_ann ∧
  ann_registered ∈ users db_ann ∧
  truthy_string (User.name ann_registered) = true ∧
  truthy_string (User.email ann_registered) = true.
Proof.
  assert (Hu : ann_registered ∈ users db_ann) by (apply elem_of_cons; by left).
  split; [apply reachable_sample|]. split; [exact Hu|].
  by destruct (@users_unique_and_named literal_engine db_ann ann_registered ann_registered
                 (reachable_sample _) Hu Hu) as (_ & _ & Hn & He).
Defined.

Lemma stored_user_is_served_witness :
  @reachable literal_engine db_ann_shopping ∧
  ann_shopping ∈ users db_ann_shopping ∧
  @handle literal_engine (GET_user_cart (ValidId 0)) 5000 db_ann_shopping =
    (res_json (success (DCart
       [CartItem.mk (Some "p1") (Some "Tea") (Some 10%float) (Some 2%float) 2000;
        CartItem.mk (Some "p2") (Some "Cake") (Some 5%float) (Some 1%float) 3000])),
     db_ann_shopping).
Proof.
  assert (Hu : ann_shopping ∈ users db_ann_shopping) by (apply elem_of_cons; by left).
  split; [apply reachable_sample|]. split; [exact Hu|].
  destruct (@stored_user_is_served literal_engine db_ann_shopping ann_shopping 5000
              (reachable_sample _) Hu) as (_ & Hcart & _).
  exact Hcart.
Defined.



Lemma histories_only_grow_witness :
  find (has_id User._id 0) (users db_ann) = Some ann_registered ∧
  ∃ u',
    find (has_id User._id 0)
         (users (@serve literal_engine
                   [(POST_user_cart (ValidId 0) tea, 2000%Z);
                    (POST_user_orders (ValidId 0), 4000%Z)] db_ann)) = Some u' ∧
    User.email u' = Some "ann@example.com" ∧
    User.orders ann_registered `prefix_of` User.orders u'.
Proof.
  split; [reflexivity|].
  destruct (@histories_only_grow literal_engine
              [(POST_user_cart (ValidId 0) tea, 2000%Z);
               (POST_user_orders (ValidId 0), 4000%Z)] db_ann 0 ann_registered eq_refl)
    as (u' & Hfind & (_ & _ & Hemail & _) & Hprefix).
  exists u'. by split_and!.
Defined.

Lemma register_twice_conflicts_witness :
  @handle literal_engine (POST_users_register ann) 1000 init =
    (res_json (success (DUser ann_registered)), db_ann) ∧
  RegisterBody.email ann_again = RegisterBody.email ann ∧
  @handle literal_engine (POST_users_register ann_again) 7000 db_ann =
    (res_status_json 400 (failure "User already exists"), db_ann).
Proof.
  split; [reflexivity|]. split; [reflexivity|].
  exact (@register_twice_conflicts literal_engine init ann ann_again 1000 7000
           ann_registered db_ann eq_refl eq_refl).
Defined.

Lemma orderId_follows_clock_witness :
  ∃ order1 order2,
    fst (@handle literal_engine (POST_user_orders (ValidId 0)) 4000 db_ann_shopping) =
      res_json (success (DOrder order1)) ∧
    fst (@handle literal_engine (POST_user_orders (ValidId 0)) 4000 db_ann) =
      res_json (success (DOrder order2)) ∧
    Order.orderId order1 = Order.orderId order2 ∧
    Order.total order1 ≠ Order.total order2.
Proof.
  eexists _, _. split; [reflexivity|]. split; [reflexivity|]. split.
  - by apply (@orderId_follows_clock literal_engine db_ann_shopping db_ann
                (ValidId 0) (ValidId 0) 4000 4000 _ _ eq_refl eq_refl).
  - cbn. discriminate.
Defined.


(** With saves that reach the store in reverse, the scone is stored before
    the coffee. *)
Lemma refresh_replaces_catalog_witness :
  ∃ db',
    @handle reversing_engine
      (GET_shop_data (Remote.ResponseEnd (Some (shop [coffee_item; scone_item])))) 500
      db_stocked =
    (res_json (success (DShopSummary
       (ShopSummary.mk (Some "FunFood") (Some "FunFood App") (Some "GST-1")
          [coffee_item; scone_item] (Some "2025-01-01T00:00:00.000Z")))), db') ∧
    length (products db') = 2%nat ∧
    map Product.name (products db') = [Some "Scone"; Some "Coffee"] ∧
    products db' ≡ₚ [Product.mk 2 (Some "Coffee") (Some 4%float) (Some "Dark roast") None
                                (Some "Drinks") true 500;
                     Product.mk 3 (Some "Scone") (Some 3%float) (Some "") None
                                (Some "General") true 500] ∧
    @handle reversing_engine GET_products 950 db' =
      (res_json (success (DProducts (products db'))), db').
Proof.
  destruct (@refresh_replaces_catalog reversing_engine db_stocked 500 950
              (shop [coffee_item; scone_item])
              (payload [coffee_item; scone_item]) eq_refl eq_refl)
    as (db' & docs & Hrun & _ & Hlen & _ & _ & _ & _ & Hlist).
  { intros item [->|[->|Hin%elem_of_nil]%elem_of_cons]%elem_of_cons; done. }
  exists db'. split; [exact Hrun|]. split; [exact Hlen|].
  injection Hrun as <-. split; [reflexivity|]. split; [|exact Hlist].
  apply Permutation_swap.
Defined.

Lemma refresh_without_products_empties_witness :
  products db_stocked ≠ [] ∧
  ∃ db',
    snd (@handle literal_engine
           (GET_shop_data (Remote.ResponseEnd (Some
              (Remote.mkShopData true
                 (Some (Remote.mkPayload (Some "FunFood") None None None None)))))) 900
           db_stocked) = db' ∧
    products db' = [].
Proof.
  split; [discriminate|].
  destruct (@refresh_without_products_empties literal_engine db_stocked 900
              (Remote.mkShopData true
                 (Some (Remote.mkPayload (Some "FunFood") None None None None)))
              (Remote.mkPayload (Some "FunFood") None None None None)
              eq_refl eq_refl (or_introl eq_refl))
    as (db' & Hrun & Hempty & _).
  exists db'. split; [by rewrite Hrun | exact Hempty].
Defined.

Lemma search_rejected_pattern_witness :
  @regex literal_engine "(tea" "i" = None ∧
  ∃ error,
    @handle literal_engine (GET_products_search "(tea") 0 db_stocked =
      (res_status_json 500 (failure error), db_stocked).
Proof.
  split; [reflexivity|].
  exact (@search_rejected_pattern literal_engine db_stocked "(tea" 0 eq_refl).
Defined.

Lemma search_within_available_witness :
  ∃ found available,
    fst (@handle literal_engine (GET_products_search "SCO") 0 db_stocked) =
      res_json (success (DProducts found)) ∧
    fst (@handle literal_engine GET_products 0 db_stocked) =
      res_json (success (DProducts available)) ∧
    found `sublist_of` available.
Proof.
  exact (@search_within_available literal_engine db_stocked "SCO"
           (λ text, contains (lower "SCO") (lower text)) 0 eq_refl).
Defined.

Lemma request_options_strip_scheme_witness :
  contains "http://" "shop.example.com:8080" = false ∧
  contains "https://" "shop.example.com:8080" = false ∧
  RequestOptions.hostname (request_options (Some "https://shop.example.com:8080")) =
    "shop.example.com:8080" ∧
  RequestOptions.port (request_options (Some "https://shop.example.com:8080")) = 3001%Z.
Proof.
  split; [reflexivity|]. split; [reflexivity|].
  destruct (request_options_strip_scheme "shop.example.com:8080" eq_refl eq_refl)
    as (_ & Hhttps & _ & _ & Hport).
  split; [exact Hhttps | apply Hport].
Defined.
